(** * star-api: donation matching service (src/main.py)

    A shallow embedding of the matching core of [main.py]: the great-circle
    distance [calculate_distance], the weighted score and sequential
    best-of-N scan of [find_best_match], and the two-write commit of
    [match_donation].

    Modelling conventions.
    - Python [int] values are [Z]; Python [str] values are [string]
      (UTF-8 bytes, compared with [String.eqb] as Python's [==] does).
    - Python [float] values are read as exact real numbers [R]: the
      arithmetic of the source is kept operation for operation, binary64
      rounding is not part of the model.  Where rounding decides a property,
      the score is also given on binary64 floats ([total_score_binary64]).
    - The tables behind the Supabase client are lists of rows (order and
      duplicates kept); the client's calls become functions on a [World].
    - The selection is given a second time with the rounding of every float
      operation and the exceptions of [math] as parameters
      ([calculate_distance_fp], [find_best_match_fp], [match_donation_fp]);
      the real-number reading is its instance [exact_ops]. *)

From Stdlib Require Import PrimFloat SpecFloat FloatOps.
From Stdlib Require Import Reals Lra ZArith List String Lia Permutation Classical.
Import ListNotations.

Open Scope string_scope.
Open Scope list_scope.
Open Scope Z_scope.
Open Scope R_scope.

(** ** Data model: the rows the code reads as dictionaries *)

(** A row of [schools], as the demand query joins it into each demand. *)
Module School.
Record t : Type := mk
  { school_id : Z;
    location_lat : R;
    location_lng : R }.
End School.

(** A row of [demands] together with its joined school. *)
Module Demand.
Record t : Type := mk
  { demand_id : Z;
    item_category : string;
    item_name : string;
    priority : Z;
    quantity_needed : Z;
    quantity_fulfilled : Z;
    schools : School.t }.

Definition set_quantity_fulfilled (n : Z) (d : t) : t :=
  mk (demand_id d) (item_category d) (item_name d) (priority d)
     (quantity_needed d) n (schools d).
End Demand.

(** A row of [donations]. *)
Module Donation.
Record t : Type := mk
  { donation_id : Z;
    item_category : string;
    item_name : string;
    quantity : Z;
    donor_lat : R;
    donor_lng : R;
    status : string }.

Definition set_status (s : string) (d : t) : t :=
  mk (donation_id d) (item_category d) (item_name d) (quantity d)
     (donor_lat d) (donor_lng d) s.
End Donation.

(** The two status strings of the source: "pending" and "matched". *)
Definition STATUS_PENDING : string := "待匹配".
Definition STATUS_MATCHED : string := "已匹配".

(** ** calculate_distance *)

(** [math.radians]. *)
Definition radians (x : R) : R := x * (PI / 180).

(** [math.atan2 y x] on real arguments. *)
Definition atan2 (y x : R) : R :=
  if Rlt_dec 0 x then atan (y / x)
  else if Rlt_dec x 0 then
         if Rle_dec 0 y then atan (y / x) + PI else atan (y / x) - PI
  else if Rlt_dec 0 y then PI / 2
  else if Rlt_dec y 0 then - (PI / 2)
  else 0.

(** The haversine term [a] of [calculate_distance]. *)
Definition haversine_a (lat1 lon1 lat2 lon2 : R) : R :=
  let dlat := radians (lat2 - lat1) in
  let dlon := radians (lon2 - lon1) in
  sin (dlat / 2) * sin (dlat / 2)
  + cos (radians lat1) * cos (radians lat2) * sin (dlon / 2) * sin (dlon / 2).

Definition calculate_distance (lat1 lon1 lat2 lon2 : R) : R :=
  let R_earth := 6371 in
  let a := haversine_a lat1 lon1 lat2 lon2 in
  let c := 2 * atan2 (sqrt a) (sqrt (1 - a)) in
  let distance := R_earth * c in
  distance.

(** ** find_best_match *)

Definition W_PRIORITY : R := 0.5.
Definition W_DISTANCE : R := 0.3.
Definition W_SUITABILITY : R := 0.2.
Definition MAX_DISTANCE : R := 200.

Definition distance_score (dist : R) : R :=
  (1 - (dist / MAX_DISTANCE)) * W_DISTANCE.

Definition priority_score (demand : Demand.t) : R :=
  (IZR (Demand.priority demand) / 5) * W_PRIORITY.

Definition suitability_score (donation : Donation.t) (demand : Demand.t) : R :=
  if String.eqb (Donation.item_name donation) (Demand.item_name demand)
  then 1.0 * W_SUITABILITY else 0.0.

Definition total_score (donation : Donation.t) (demand : Demand.t) (dist : R) : R :=
  priority_score demand + distance_score dist + suitability_score donation demand.

(** Distance from the donor to the school of a demand. *)
Definition demand_distance (donation : Donation.t) (demand : Demand.t) : R :=
  let school := Demand.schools demand in
  calculate_distance
    (Donation.donor_lat donation) (Donation.donor_lng donation)
    (School.location_lat school) (School.location_lng school).

(** Python's [x > y] on the two numbers, as a boolean. *)
Definition Rgtb (x y : R) : bool := if Rgt_dec x y then true else false.

(** The state of the scan: [(best_match, best_score)]. *)
Definition scan_state : Type := (option Demand.t * R)%type.

(** One iteration of the [for demand in potential_demands] loop. *)
Definition loop_body (donation : Donation.t) (st : scan_state) (demand : Demand.t)
  : scan_state :=
  let dist := demand_distance donation demand in
  if Rgtb dist MAX_DISTANCE then st
  else
    let score := total_score donation demand dist in
    if Rgtb score (snd st) then (Some demand, score) else st.

(** The whole loop, started from [best_match = None], [best_score = -1]. *)
Definition scan (donation : Donation.t) (potential_demands : list Demand.t)
  : scan_state :=
  fold_left (loop_body donation) potential_demands (None, -1).

(** The candidate passes the distance cutoff of the loop. *)
Definition within_range (donation : Donation.t) (demand : Demand.t) : Prop :=
  demand_distance donation demand <= MAX_DISTANCE.

(** The score the loop computes for a candidate. *)
Definition score_of (donation : Donation.t) (demand : Demand.t) : R :=
  total_score donation demand (demand_distance donation demand).

(** ** The score on binary64 floats *)




(** ** The store *)

(** Modelled from the spec: the data-access collaborator (the Supabase
    client, which is not part of the repository).  Reads answer from the
    tables; a write either is applied or raises with a message and leaves the
    tables as they were.  [write_faults] schedules the outcome of the writes
    to come: [None] (or an exhausted schedule) lets the write through,
    [Some msg] makes it raise [msg]. *)
Record World : Type := mkWorld
  { donations : list Donation.t;
    demands : list Demand.t;
    write_faults : list (option string) }.

(** The query of [find_best_match]: the demands (each with its school) of
    item category [category] whose [quantity_fulfilled] is below their
    [quantity_needed], in table order. *)
Definition select_unmet_demands (w : World) (category : string) : list Demand.t :=
  filter (fun d => andb (String.eqb (Demand.item_category d) category)
                        (Demand.quantity_fulfilled d <? Demand.quantity_needed d)%Z)
         (demands w).

(** The query of [match_donation]: the donations with this [donation_id]
    and this [status], in table order. *)
Definition select_donations (w : World) (id : Z) (s : string) : list Donation.t :=
  filter (fun d => andb (Donation.donation_id d =? id)%Z
                        (String.eqb (Donation.status d) s))
         (donations w).

Definition find_best_match (w : World) (donation : Donation.t) : option Demand.t :=
  let potential_demands := select_unmet_demands w (Donation.item_category donation) in
  match potential_demands with
  | [] => None
  | _ => fst (scan donation potential_demands)
  end.

(** ** Effects: state and exceptions *)

Definition M (E A : Type) : Type := World -> ((A + E) * World)%type.

Definition ret {E A} (a : A) : M E A := fun w => (inl a, w).
Definition raise {E A} (e : E) : M E A := fun w => (inr e, w).
Definition bind {E A B} (m : M E A) (k : A -> M E B) : M E B :=
  fun w => match m w with
           | (inl a, w') => k a w'
           | (inr e, w') => (inr e, w')
           end.
Definition try_except {E E' A} (m : M E A) (handler : E -> M E' A) : M E' A :=
  fun w => match m w with
           | (inl a, w') => (inl a, w')
           | (inr e, w') => handler e w'
           end.
Definition gets {E A} (f : World -> A) : M E A := fun w => (inl (f w), w).

Notation "x <- m ;; k" := (bind m (fun x => k))
  (at level 61, m at next level, right associativity).
Notation "m ;;; k" := (bind m (fun _ => k))
  (at level 61, right associativity).

(** The exception a failing store call raises; [str e] is its message. *)
Record StoreError : Type := mkStoreError { str : string }.

Record HTTPException : Type := mkHTTPException
  { status_code : Z;
    detail : string }.

(** A write: consumes one entry of the schedule. *)
Definition execute_write (apply : World -> World) : M StoreError unit :=
  fun w =>
    match write_faults w with
    | [] => (inl tt, apply w)
    | None :: rest =>
        (inl tt, apply (mkWorld (donations w) (demands w) rest))
    | Some msg :: rest =>
        (inr (mkStoreError msg), mkWorld (donations w) (demands w) rest)
    end.

(** The first write: set [status] on every donation with this id. *)
Definition set_status_where (id : Z) (s : string) (rows : list Donation.t)
  : list Donation.t :=
  map (fun d => if (Donation.donation_id d =? id)%Z
                then Donation.set_status s d else d) rows.

Definition update_donation_status (id : Z) (s : string) : M StoreError unit :=
  execute_write (fun w =>
    mkWorld (set_status_where id s (donations w)) (demands w) (write_faults w)).

(** The second write: set [quantity_fulfilled] on every demand with this id. *)
Definition set_fulfilled_where (id n : Z) (rows : list Demand.t) : list Demand.t :=
  map (fun d => if (Demand.demand_id d =? id)%Z
                then Demand.set_quantity_fulfilled n d else d) rows.

Definition update_demand_fulfilled (id : Z) (n : Z) : M StoreError unit :=
  execute_write (fun w =>
    mkWorld (donations w) (set_fulfilled_where id n (demands w)) (write_faults w)).

(** ** match_donation *)

Record MatchRequest : Type := mkMatchRequest { donation_id : Z }.

Record MatchResponse : Type := mkMatchResponse
  { message : string;
    donation : Donation.t;
    matched_school : School.t;
    matched_demand : Demand.t }.

Definition DETAIL_NO_PENDING_DONATION : string := "未找到该待匹配的捐赠物品".
Definition DETAIL_NO_SUITABLE_SCHOOL : string := "未找到合适的匹配学校".
Definition DETAIL_UPDATE_FAILED : string := "更新数据库失败: ".
Definition MESSAGE_MATCHED : string := "匹配成功！".

(** The [try] block: the two writes, in order. *)
Definition commit (donation_id : Z) (donation : Donation.t) (best_demand : Demand.t)
  : M StoreError unit :=
  update_donation_status donation_id STATUS_MATCHED ;;;
  let new_fulfilled :=
    (Demand.quantity_fulfilled best_demand + Donation.quantity donation)%Z in
  update_demand_fulfilled (Demand.demand_id best_demand) new_fulfilled.

Definition match_donation (request : MatchRequest) : M HTTPException MatchResponse :=
  let donation_id := donation_id request in
  data <- gets (fun w => select_donations w donation_id STATUS_PENDING) ;;
  match data with
  | [] => raise (mkHTTPException 404 DETAIL_NO_PENDING_DONATION)
  | donation :: _ =>
      best <- gets (fun w => find_best_match w donation) ;;
      match best with
      | None => raise (mkHTTPException 404 DETAIL_NO_SUITABLE_SCHOOL)
      | Some best_demand =>
          try_except (commit donation_id donation best_demand)
            (fun e => raise (mkHTTPException 500 (DETAIL_UPDATE_FAILED ++ str e)%string)) ;;;
          ret (mkMatchResponse MESSAGE_MATCHED donation
                 (Demand.schools best_demand) best_demand)
      end
  end.

(** ** The selection with rounding and with the exceptions of [math]

    The same code once more, now with what the real-number reading leaves
    out: every float operation rounds its exact result, and the calls into
    [math] and the division of two integers can raise.  The rounding [rnd]
    and the library functions are parameters, so what is proved holds for
    whatever they are; float values are the real numbers they denote (no
    infinities or NaN). *)

Inductive PyException : Type :=
| ValueError      (* math domain error *)
| OverflowError.  (* integer division result too large for a float *)

Inductive PyResult (A : Type) : Type :=
| Returns (a : A)
| Raises (e : PyException).

Arguments Returns {A} a.
Arguments Raises {A} e.

Definition py_bind {A B : Type} (m : PyResult A) (k : A -> PyResult B) : PyResult B :=
  match m with
  | Returns a => k a
  | Raises e => Raises e
  end.

Notation "x <~ m ;; k" := (py_bind m (fun x => k))
  (at level 61, m at next level, right associativity).

Record FloatOps : Type := mkFloatOps
  { rnd : R -> R;
    math_radians : R -> R;
    math_sin : R -> PyResult R;
    math_cos : R -> PyResult R;
    math_atan2 : R -> R -> R;
    int_truediv : Z -> Z -> PyResult R }.

(** [math.sqrt]: a negative argument is a domain error. *)
Definition math_sqrt (F : FloatOps) (x : R) : PyResult R :=
  if Rlt_dec x 0 then Raises ValueError else Returns (rnd F (sqrt x)).

Definition calculate_distance_fp (F : FloatOps) (lat1 lon1 lat2 lon2 : R)
  : PyResult R :=
  let R_earth := 6371 in
  let dlat := math_radians F (rnd F (lat2 - lat1)) in
  let dlon := math_radians F (rnd F (lon2 - lon1)) in
  s1 <~ math_sin F (rnd F (dlat / 2)) ;;
  s2 <~ math_sin F (rnd F (dlat / 2)) ;;
  c1 <~ math_cos F (math_radians F lat1) ;;
  c2 <~ math_cos F (math_radians F lat2) ;;
  s3 <~ math_sin F (rnd F (dlon / 2)) ;;
  s4 <~ math_sin F (rnd F (dlon / 2)) ;;
  let a := rnd F (rnd F (s1 * s2) + rnd F (rnd F (rnd F (c1 * c2) * s3) * s4)) in
  q1 <~ math_sqrt F a ;;
  q2 <~ math_sqrt F (rnd F (1 - a)) ;;
  let c := rnd F (2 * math_atan2 F q1 q2) in
  let distance := rnd F (R_earth * c) in
  Returns distance.

(** The score of the loop body for a distance already computed. *)
Definition total_score_fp (F : FloatOps) (donation : Donation.t) (demand : Demand.t)
           (dist : R) : PyResult R :=
  let distance_score := rnd F (rnd F (1 - rnd F (dist / MAX_DISTANCE)) * rnd F W_DISTANCE) in
  q <~ int_truediv F (Demand.priority demand) 5 ;;
  let priority_score := rnd F (q * rnd F W_PRIORITY) in
  let suitability_score :=
    if String.eqb (Donation.item_name donation) (Demand.item_name demand)
    then rnd F (1.0 * rnd F W_SUITABILITY) else 0.0 in
  Returns (rnd F (rnd F (priority_score + distance_score) + suitability_score)).

(** What the loop body works out for one candidate before it touches the
    best match: it raises, or skips the candidate as too far, or has a
    score. *)
Inductive Verdict : Type :=
| TooFar
| Scored (score : R).

Definition evaluate_fp (F : FloatOps) (donation : Donation.t) (demand : Demand.t)
  : PyResult Verdict :=
  let school := Demand.schools demand in
  dist <~ calculate_distance_fp F
            (Donation.donor_lat donation) (Donation.donor_lng donation)
            (School.location_lat school) (School.location_lng school) ;;
  if Rgtb dist MAX_DISTANCE then Returns TooFar
  else
    score <~ total_score_fp F donation demand dist ;;
    Returns (Scored score).

(** No candidate of the list raises. *)
Definition all_return (F : FloatOps) (donation : Donation.t) (l : list Demand.t) : Prop :=
  forall x, In x l -> exists v, evaluate_fp F donation x = Returns v.

Definition loop_body_fp (F : FloatOps) (donation : Donation.t) (st : scan_state)
           (demand : Demand.t) : PyResult scan_state :=
  verdict <~ evaluate_fp F donation demand ;;
  match verdict with
  | TooFar => Returns st
  | Scored score =>
      if Rgtb score (snd st) then Returns (Some demand, score) else Returns st
  end.

(** The loop from a given state: the first exception ends it. *)
Fixpoint scan_from_fp (F : FloatOps) (donation : Donation.t)
         (potential_demands : list Demand.t) (st : scan_state) : PyResult scan_state :=
  match potential_demands with
  | [] => Returns st
  | demand :: rest =>
      st' <~ loop_body_fp F donation st demand ;;
      scan_from_fp F donation rest st'
  end.

Definition find_best_match_fp (F : FloatOps) (w : World) (donation : Donation.t)
  : PyResult (option Demand.t) :=
  let potential_demands := select_unmet_demands w (Donation.item_category donation) in
  match potential_demands with
  | [] => Returns None
  | _ =>
      st <~ scan_from_fp F donation potential_demands (None, -1) ;;
      Returns (fst st)
  end.



(** Exact arithmetic: nothing is rounded and nothing raises. *)
Definition exact_ops : FloatOps :=
  mkFloatOps (fun x => x) radians
             (fun x => Returns (sin x)) (fun x => Returns (cos x))
             atan2 (fun p q => Returns (IZR p / IZR q)).

(** What the theorems on scores ask of the arithmetic; all of it holds of
    binary64 with round to nearest. *)
Record well_rounded (F : FloatOps) : Prop := mk_well_rounded
  { rnd_monotone : forall x y, x <= y -> rnd F x <= rnd F y;
    rnd_0 : rnd F 0 = 0;
    rnd_1 : rnd F 1 = 1;
    int_truediv_nonneg :
      forall p q v, (0 <= p)%Z -> (0 < q)%Z -> int_truediv F p q = Returns v -> 0 <= v }.

(** ** get_pending_donations *)

Record PendingDonationsResponse : Type := mkPendingDonationsResponse
  { pending_donations : list Donation.t }.

(** The query of [get_pending_donations]: the donations with this [status],
    in table order. *)
Definition select_donations_by_status (w : World) (s : string) : list Donation.t :=
  filter (fun d => String.eqb (Donation.status d) s) (donations w).

Definition get_pending_donations : M HTTPException PendingDonationsResponse :=
  data <- gets (fun w => select_donations_by_status w STATUS_PENDING) ;;
  ret (mkPendingDonationsResponse data).

(** ** Quantities used to state properties *)

(** The sum of [quantity_fulfilled] over a table of demands. *)
Definition total_fulfilled (rows : list Demand.t) : Z :=
  fold_right (fun d acc => (Demand.quantity_fulfilled d + acc)%Z) 0%Z rows.

(** ** Sample data

    A donor on the equator at longitude 0, one school at the same place and
    one half the globe away, and a few demands of category "books". *)

Module Sample.
Definition school_near : School.t := School.mk 1 0 0.
Definition school_far : School.t := School.mk 2 0 180.

(** A pending donation of 10 items. *)
Definition don : Donation.t :=
  Donation.mk 1 "books" "Math Textbook" 10 0 0 STATUS_PENDING.

(** Same name, top priority, room for the whole donation. *)
Definition D1 : Demand.t := Demand.mk 1 "books" "Math Textbook" 5 20 0 school_near.
(** Another name, low priority, needs only 5. *)
Definition D2 : Demand.t := Demand.mk 2 "books" "Novel" 1 5 0 school_near.
(** As [D1], but at the far school. *)
Definition D3 : Demand.t := Demand.mk 3 "books" "Math Textbook" 5 20 0 school_far.
(** Two demands with the same score. *)
Definition T1 : Demand.t := Demand.mk 4 "books" "Novel" 3 8 0 school_near.
Definition T2 : Demand.t := Demand.mk 5 "books" "Novel" 3 9 0 school_near.

(** Two demands whose priorities differ by one, both below [2^53]. *)
Definition H1 : Demand.t :=
  Demand.mk 8 "books" "Novel" 5629499534213123 8 0 school_near.
Definition H2 : Demand.t :=
  Demand.mk 9 "books" "Novel" 5629499534213122 8 0 school_near.

(** Arithmetic in which [math.sin] raises, as it does on an infinity. *)
Definition raising_ops : FloatOps :=
  mkFloatOps (fun x => x) radians
             (fun _ => Raises ValueError) (fun x => Returns (cos x))
             atan2 (fun p q => Returns (IZR p / IZR q)).

(** A store holding the donation, the given demands and write schedule. *)
Definition world (ds : list Demand.t) (faults : list (option string)) : World :=
  mkWorld [don] ds faults.
End Sample.

(** ** Facts about the distance *)

Lemma Rgtb_true (x y : R) : x > y -> Rgtb x y = true.
Proof. intros H. unfold Rgtb. destruct (Rgt_dec x y); [reflexivity | contradiction]. Qed.

Lemma Rgtb_false (x y : R) : x <= y -> Rgtb x y = false.
Proof. intros H. unfold Rgtb. destruct (Rgt_dec x y); [lra | reflexivity]. Qed.

Lemma Rgtb_true_iff (x y : R) : Rgtb x y = true <-> x > y.
Proof.
  unfold Rgtb. destruct (Rgt_dec x y); split; intros; try assumption;
    try reflexivity; try discriminate; contradiction.
Qed.

Lemma Rgtb_false_iff (x y : R) : Rgtb x y = false <-> x <= y.
Proof.
  unfold Rgtb. destruct (Rgt_dec x y); split; intros; try discriminate;
    try reflexivity; lra.
Qed.

Lemma radians_0 : radians 0 = 0.
Proof. unfold radians. lra. Qed.

Lemma radians_opp (x : R) : radians (- x) = - radians x.
Proof. unfold radians. lra. Qed.

Lemma radians_minus (x y : R) : radians (x - y) = radians x - radians y.
Proof. unfold radians. lra. Qed.

Lemma atan2_0_1 : atan2 0 1 = 0.
Proof.
  unfold atan2. destruct (Rlt_dec 0 1) as [_ | H]; [| lra].
  replace (0 / 1) with 0 by lra. apply atan_0.
Qed.

Lemma haversine_a_same (lat lon : R) : haversine_a lat lon lat lon = 0.
Proof.
  unfold haversine_a.
  replace (lat - lat) with 0 by lra. replace (lon - lon) with 0 by lra.
  rewrite radians_0. replace (0 / 2) with 0 by lra. rewrite sin_0. lra.
Qed.

Lemma haversine_a_sym (lat1 lon1 lat2 lon2 : R) :
  haversine_a lat1 lon1 lat2 lon2 = haversine_a lat2 lon2 lat1 lon1.
Proof.
  unfold haversine_a.
  replace (lat1 - lat2) with (- (lat2 - lat1)) by lra.
  replace (lon1 - lon2) with (- (lon2 - lon1)) by lra.
  rewrite !radians_opp.
  replace (- radians (lat2 - lat1) / 2) with (- (radians (lat2 - lat1) / 2)) by lra.
  replace (- radians (lon2 - lon1) / 2) with (- (radians (lon2 - lon1) / 2)) by lra.
  rewrite !sin_neg. ring.
Qed.

Lemma calculate_distance_same (lat lon : R) : calculate_distance lat lon lat lon = 0.
Proof.
  unfold calculate_distance. rewrite haversine_a_same.
  replace (1 - 0) with 1 by lra. rewrite sqrt_0, sqrt_1, atan2_0_1. lra.
Qed.

Lemma calculate_distance_sym (lat1 lon1 lat2 lon2 : R) :
  calculate_distance lat1 lon1 lat2 lon2 = calculate_distance lat2 lon2 lat1 lon1.
Proof.
  unfold calculate_distance. rewrite (haversine_a_sym lat1 lon1 lat2 lon2). reflexivity.
Qed.

(** In exact arithmetic the argument of both square roots stays in [0, 1];
    with rounding it can leave that interval, which [calculate_distance_fp]
    accounts for. *)
Lemma sin_half_sqr (x : R) : sin (x / 2) * sin (x / 2) = (1 - cos x) / 2.
Proof.
  replace x with (2 * (x / 2)) at 3 by lra. rewrite cos_2a_sin. lra.
Qed.

Lemma cos_cos_product (x y : R) : cos x * cos y = (cos (x - y) + cos (x + y)) / 2.
Proof. rewrite cos_minus, cos_plus. lra. Qed.

Lemma haversine_a_bounds (lat1 lon1 lat2 lon2 : R) :
  0 <= haversine_a lat1 lon1 lat2 lon2 <= 1.
Proof.
  unfold haversine_a. cbv zeta.
  rewrite Rmult_assoc, (sin_half_sqr (radians (lon2 - lon1))).
  rewrite sin_half_sqr, cos_cos_product.
  rewrite radians_minus.
  replace (radians lat1 - radians lat2) with (- (radians lat2 - radians lat1)) by lra.
  rewrite cos_neg.
  pose proof (COS_bound (radians lat2 - radians lat1)) as [Hc1 Hc2].
  pose proof (COS_bound (radians lat1 + radians lat2)) as [Hd1 Hd2].
  pose proof (COS_bound (radians (lon2 - lon1))) as [He1 He2].
  split; nra.
Qed.

(** A far pair: the equator at longitudes 0 and 180 is half the globe apart. *)
Lemma calculate_distance_antipodal : calculate_distance 0 0 0 180 = 6371 * PI.
Proof.
  unfold calculate_distance, haversine_a. cbv zeta.
  replace (0 - 0) with 0 by lra. replace (180 - 0) with 180 by lra.
  rewrite radians_0. replace (0 / 2) with 0 by lra.
  replace (radians 180 / 2) with (PI / 2) by (unfold radians; lra).
  rewrite sin_0, cos_0, sin_PI2.
  replace (0 * 0 + 1 * 1 * 1 * 1) with 1 by lra.
  replace (1 - 1) with 0 by lra. rewrite sqrt_0, sqrt_1.
  unfold atan2.
  destruct (Rlt_dec 0 0); [lra |]. destruct (Rlt_dec 0 1); lra.
Qed.

(** ** Facts about the scan *)

Section Scan.
Variable donation : Donation.t.

Lemma loop_body_far (st : scan_state) (demand : Demand.t) :
  ~ within_range donation demand -> loop_body donation st demand = st.
Proof.
  intros H. unfold loop_body, within_range in *. cbv zeta.
  rewrite Rgtb_true by lra. reflexivity.
Qed.

Lemma loop_body_adopt (st : scan_state) (demand : Demand.t) :
  within_range donation demand -> score_of donation demand > snd st ->
  loop_body donation st demand = (Some demand, score_of donation demand).
Proof.
  intros Hw Hs. unfold loop_body, within_range, score_of in *. cbv zeta.
  rewrite Rgtb_false by lra. rewrite Rgtb_true by lra. reflexivity.
Qed.

Lemma loop_body_keep (st : scan_state) (demand : Demand.t) :
  (within_range donation demand -> score_of donation demand <= snd st) ->
  loop_body donation st demand = st.
Proof.
  intros H. unfold loop_body, within_range, score_of in *. cbv zeta.
  destruct (Rgtb (demand_distance donation demand) MAX_DISTANCE) eqn:Hd;
    [reflexivity |].
  apply Rgtb_false_iff in Hd. rewrite Rgtb_false by auto. reflexivity.
Qed.

(** The three cases of one iteration. *)
Lemma loop_body_cases (st : scan_state) (demand : Demand.t) :
  (loop_body donation st demand = st
   /\ (within_range donation demand -> score_of donation demand <= snd st))
  \/ (loop_body donation st demand = (Some demand, score_of donation demand)
      /\ within_range donation demand /\ score_of donation demand > snd st).
Proof.
  destruct (Rle_dec (demand_distance donation demand) MAX_DISTANCE) as [Hw | Hw].
  - destruct (Rgt_dec (score_of donation demand) (snd st)) as [Hs | Hs].
    + right. split; [apply loop_body_adopt | split]; assumption.
    + left. split; [apply loop_body_keep |]; intros _; lra.
  - left. split; [apply loop_body_far; exact Hw |].
    intros Hw'. contradiction.
Qed.

(** What the loop leaves behind, from any starting state: either nothing
    beat the starting score, or the result is the first candidate in range
    that carries the greatest score. *)
Lemma fold_loop_body_spec (l : list Demand.t) (st : scan_state) :
  (fold_left (loop_body donation) l st = st
   /\ forall x, In x l -> within_range donation x -> score_of donation x <= snd st)
  \/ (exists l1 best l2,
        l = l1 ++ best :: l2
        /\ fold_left (loop_body donation) l st = (Some best, score_of donation best)
        /\ within_range donation best
        /\ score_of donation best > snd st
        /\ (forall x, In x l1 -> within_range donation x -> score_of donation x < score_of donation best)
        /\ (forall x, In x l2 -> within_range donation x -> score_of donation x <= score_of donation best)).
Proof.
  revert st. induction l as [| d l IH]; intros st.
  - left. split; [reflexivity | intros x []].
  - cbn [fold_left].
    destruct (loop_body_cases st d) as [[Hst Hle] | [Hst [Hw Hgt]]]; rewrite Hst.
    + destruct (IH st) as [[Hf Hall] | (l1 & best & l2 & Hl & Hf & Hw & Hgt & H1 & H2)].
      * left. split; [exact Hf |].
        intros x [<- | Hx]; [exact Hle | apply Hall; exact Hx].
      * right. exists (d :: l1), best, l2. subst l.
        repeat split; try assumption.
        intros x [<- | Hx] Hwx; [specialize (Hle Hwx); lra | apply H1; assumption].
    + destruct (IH (Some d, score_of donation d))
        as [[Hf Hall] | (l1 & best & l2 & Hl & Hf & Hw' & Hgt' & H1 & H2)].
      * right. exists [], d, l. cbn [snd] in Hall.
        repeat split; try assumption. intros x [].
      * right. exists (d :: l1), best, l2. subst l. cbn [snd] in Hgt'.
        repeat split; try assumption; [lra |].
        intros x [<- | Hx] Hwx; [lra | apply H1; assumption].
Qed.

(** The converse reading: a candidate in range that beats everything before
    it and is not beaten after it is what the loop returns. *)
Lemma fold_loop_body_first_max (l1 l2 : list Demand.t) (c : Demand.t) (st : scan_state) :
  within_range donation c ->
  score_of donation c > snd st ->
  (forall x, In x l1 -> within_range donation x -> score_of donation x < score_of donation c) ->
  (forall x, In x l2 -> within_range donation x -> score_of donation x <= score_of donation c) ->
  fold_left (loop_body donation) (l1 ++ c :: l2) st = (Some c, score_of donation c).
Proof.
  intros Hw Hgt H1 H2.
  rewrite fold_left_app. cbn [fold_left].
  assert (Hmid : score_of donation c > snd (fold_left (loop_body donation) l1 st)).
  { destruct (fold_loop_body_spec l1 st)
      as [[Hf _] | (la & b & lb & Hl & Hf & Hwb & _ & _ & _)]; rewrite Hf.
    - exact Hgt.
    - cbn [snd]. apply H1; [subst l1; apply in_elt | exact Hwb]. }
  rewrite (loop_body_adopt _ c Hw Hmid).
  destruct (fold_loop_body_spec l2 (Some c, score_of donation c))
    as [[Hf _] | (la & b & lb & Hl & Hf & Hwb & Hgtb & _ & _)].
  - exact Hf.
  - exfalso. cbn [snd] in Hgtb.
    assert (score_of donation b <= score_of donation c) by (apply H2; [subst l2; apply in_elt | exact Hwb]).
    lra.
Qed.
End Scan.

(** ** Facts about the selector against the store *)

Lemma select_unmet_demands_In (w : World) (category : string) (d : Demand.t) :
  In d (select_unmet_demands w category) <->
  In d (demands w)
  /\ Demand.item_category d = category
  /\ (Demand.quantity_fulfilled d < Demand.quantity_needed d)%Z.
Proof.
  unfold select_unmet_demands. rewrite filter_In, Bool.andb_true_iff.
  rewrite String.eqb_eq, Z.ltb_lt. tauto.
Qed.

Lemma select_donations_In (w : World) (id : Z) (s : string) (d : Donation.t) :
  In d (select_donations w id s) <->
  In d (donations w) /\ Donation.donation_id d = id /\ Donation.status d = s.
Proof.
  unfold select_donations. rewrite filter_In, Bool.andb_true_iff.
  rewrite Z.eqb_eq, String.eqb_eq. tauto.
Qed.

Lemma find_best_match_scan (w : World) (donation : Donation.t) :
  find_best_match w donation
  = fst (scan donation (select_unmet_demands w (Donation.item_category donation))).
Proof.
  unfold find_best_match. cbv zeta.
  destruct (select_unmet_demands w (Donation.item_category donation)); reflexivity.
Qed.

(** What a returned demand is: the first candidate in range with the
    greatest score, and that score is above the starting score. *)
Lemma find_best_match_Some (w : World) (donation : Donation.t) (best : Demand.t) :
  find_best_match w donation = Some best ->
  exists l1 l2,
    select_unmet_demands w (Donation.item_category donation) = l1 ++ best :: l2
    /\ within_range donation best
    /\ score_of donation best > -1
    /\ (forall x, In x l1 -> within_range donation x ->
                  score_of donation x < score_of donation best)
    /\ (forall x, In x l2 -> within_range donation x ->
                  score_of donation x <= score_of donation best).
Proof.
  rewrite find_best_match_scan. unfold scan. intros H.
  destruct (fold_loop_body_spec donation
              (select_unmet_demands w (Donation.item_category donation)) (None, -1))
    as [[Hf _] | (l1 & b & l2 & Hl & Hf & Hw & Hgt & H1 & H2)];
    rewrite Hf in H; cbn [fst snd] in *; [discriminate |].
  injection H as <-. exists l1, l2. repeat split; assumption.
Qed.

Lemma find_best_match_first_max (w : World) (donation : Donation.t)
      (l1 l2 : list Demand.t) (c : Demand.t) :
  select_unmet_demands w (Donation.item_category donation) = l1 ++ c :: l2 ->
  within_range donation c ->
  score_of donation c > -1 ->
  (forall x, In x l1 -> within_range donation x ->
             score_of donation x < score_of donation c) ->
  (forall x, In x l2 -> within_range donation x ->
             score_of donation x <= score_of donation c) ->
  find_best_match w donation = Some c.
Proof.
  intros Hl Hw Hgt H1 H2. rewrite find_best_match_scan, Hl. unfold scan.
  rewrite (fold_loop_body_first_max donation l1 l2 c (None, -1)); auto.
Qed.

(** ** Facts about the coordinator *)

Lemma match_donation_no_pending (w : World) (id : Z) :
  select_donations w id STATUS_PENDING = [] ->
  match_donation (mkMatchRequest id) w
  = (inr (mkHTTPException 404 DETAIL_NO_PENDING_DONATION), w).
Proof.
  intros H. unfold match_donation, bind, gets, raise. cbn [donation_id].
  rewrite H. reflexivity.
Qed.

Lemma match_donation_no_demand (w : World) (id : Z) (d : Donation.t) (tl : list Donation.t) :
  select_donations w id STATUS_PENDING = d :: tl ->
  find_best_match w d = None ->
  match_donation (mkMatchRequest id) w
  = (inr (mkHTTPException 404 DETAIL_NO_SUITABLE_SCHOOL), w).
Proof.
  intros H Hb. unfold match_donation, bind, gets, raise. cbn [donation_id].
  rewrite H, Hb. reflexivity.
Qed.

(** Once a donation and a demand are chosen, the outcome is decided by the
    [try] block. *)
Lemma match_donation_commit (w : World) (id : Z) (d : Donation.t) (tl : list Donation.t)
      (best : Demand.t) :
  select_donations w id STATUS_PENDING = d :: tl ->
  find_best_match w d = Some best ->
  match_donation (mkMatchRequest id) w
  = match commit id d best w with
    | (inl _, w') =>
        (inl (mkMatchResponse MESSAGE_MATCHED d (Demand.schools best) best), w')
    | (inr e, w') =>
        (inr (mkHTTPException 500 (DETAIL_UPDATE_FAILED ++ str e)%string), w')
    end.
Proof.
  intros H Hb. unfold match_donation, bind, gets, raise, try_except, ret.
  cbn [donation_id]. rewrite H, Hb.
  destruct (commit id d best w) as [[[] | e] w']; reflexivity.
Qed.

(** The four ways the two writes can go. *)
Lemma commit_cases (w : World) (id : Z) (d : Donation.t) (best : Demand.t) :
  let n := (Demand.quantity_fulfilled best + Donation.quantity d)%Z in
  match write_faults w with
  | [] =>
      commit id d best w
      = (inl tt, mkWorld (set_status_where id STATUS_MATCHED (donations w))
                         (set_fulfilled_where (Demand.demand_id best) n (demands w)) [])
  | Some msg :: rest =>
      commit id d best w
      = (inr (mkStoreError msg), mkWorld (donations w) (demands w) rest)
  | [None] =>
      commit id d best w
      = (inl tt, mkWorld (set_status_where id STATUS_MATCHED (donations w))
                         (set_fulfilled_where (Demand.demand_id best) n (demands w)) [])
  | None :: None :: rest =>
      commit id d best w
      = (inl tt, mkWorld (set_status_where id STATUS_MATCHED (donations w))
                         (set_fulfilled_where (Demand.demand_id best) n (demands w)) rest)
  | None :: Some msg :: rest =>
      commit id d best w
      = (inr (mkStoreError msg), mkWorld (set_status_where id STATUS_MATCHED (donations w)) (demands w) rest)
  end.
Proof.
  unfold commit, bind, update_donation_status, update_demand_fulfilled, execute_write.
  destruct w as [dons dems faults]. cbn [write_faults donations demands].
  destruct faults as [| [msg |] [| [msg' |] rest]]; reflexivity.
Qed.

(** A successful commit has applied both writes. *)
Lemma commit_success (w w' : World) (id : Z) (d : Donation.t) (best : Demand.t) :
  commit id d best w = (inl tt, w') ->
  donations w' = set_status_where id STATUS_MATCHED (donations w)
  /\ demands w'
     = set_fulfilled_where (Demand.demand_id best)
         (Demand.quantity_fulfilled best + Donation.quantity d)%Z (demands w).
Proof.
  intros H. pose proof (commit_cases w id d best) as Hc. cbv zeta in Hc.
  destruct (write_faults w) as [| [msg |] [| [msg' |] rest]];
    rewrite Hc in H; try discriminate; injection H as <-; split; reflexivity.
Qed.

Lemma set_status_where_matched_no_pending (id : Z) (ds : list Donation.t) (w : World) :
  donations w = set_status_where id STATUS_MATCHED ds ->
  select_donations w id STATUS_PENDING = [].
Proof.
  intros H. unfold select_donations. rewrite H. clear H. unfold set_status_where.
  induction ds as [| d ds IH]; [reflexivity |].
  cbn [map filter].
  destruct (Donation.donation_id d =? id)%Z eqn:E.
  - cbn [Donation.set_status Donation.donation_id Donation.status]. rewrite E.
    cbn. exact IH.
  - rewrite E. cbn [andb]. exact IH.
Qed.

Lemma sample_distance_near (d : Demand.t) :
  Demand.schools d = Sample.school_near -> demand_distance Sample.don d = 0.
Proof.
  intros H. unfold demand_distance. cbv zeta. rewrite H.
  exact (calculate_distance_same 0 0).
Qed.

Lemma sample_distance_far : demand_distance Sample.don Sample.D3 = 6371 * PI.
Proof. exact calculate_distance_antipodal. Qed.

Lemma sample_far_out_of_range : ~ within_range Sample.don Sample.D3.
Proof.
  unfold within_range. rewrite sample_distance_far. unfold MAX_DISTANCE.
  pose proof PI2_1. lra.
Qed.

Ltac sample_score :=
  unfold score_of; rewrite sample_distance_near by reflexivity;
  unfold total_score, priority_score, distance_score, suitability_score,
    W_PRIORITY, W_DISTANCE, W_SUITABILITY, MAX_DISTANCE;
  match goal with
  | |- context [String.eqb ?a ?b] =>
      let v := eval vm_compute in (String.eqb a b) in
      change (String.eqb a b) with v
  end;
  match goal with
  | |- context [Demand.priority ?d] =>
      let v := eval vm_compute in (Demand.priority d) in
      change (Demand.priority d) with v
  end;
  cbv iota; lra.

Lemma sample_score_D1 : score_of Sample.don Sample.D1 = 1.
Proof. sample_score. Qed.

Lemma sample_score_D2 : score_of Sample.don Sample.D2 = 0.4.
Proof. sample_score. Qed.

Lemma sample_score_T1 : score_of Sample.don Sample.T1 = 0.6.
Proof. sample_score. Qed.

Lemma sample_score_T2 : score_of Sample.don Sample.T2 = 0.6.
Proof. sample_score. Qed.

Lemma sample_within_near (d : Demand.t) :
  Demand.schools d = Sample.school_near -> within_range Sample.don d.
Proof.
  intros H. unfold within_range. rewrite (sample_distance_near d H).
  unfold MAX_DISTANCE. lra.
Qed.

(** ** More on the coordinator: success, seen from both sides *)

Lemma match_donation_success_inv (w w' : World) (req : MatchRequest) (resp : MatchResponse) :
  match_donation req w = (inl resp, w') ->
  exists tl,
    select_donations w (donation_id req) STATUS_PENDING = donation resp :: tl
    /\ find_best_match w (donation resp) = Some (matched_demand resp)
    /\ commit (donation_id req) (donation resp) (matched_demand resp) w = (inl tt, w')
    /\ message resp = MESSAGE_MATCHED
    /\ matched_school resp = Demand.schools (matched_demand resp).
Proof.
  destruct req as [id]. cbn [donation_id].
  destruct (select_donations w id STATUS_PENDING) as [| d tl] eqn:Hsel.
  - rewrite (match_donation_no_pending w id Hsel). discriminate.
  - destruct (find_best_match w d) as [best |] eqn:Hbest.
    + rewrite (match_donation_commit w id d tl best Hsel Hbest).
      destruct (commit id d best w) as [[[] | e] w1] eqn:Hc; [| discriminate].
      intros H. injection H as <- <-. exists tl.
      cbn [donation matched_demand message matched_school].
      repeat split; assumption.
    + rewrite (match_donation_no_demand w id d tl Hsel Hbest). discriminate.
Qed.

Lemma match_donation_success (w : World) (id : Z) (d : Donation.t) (tl : list Donation.t)
      (best : Demand.t) :
  select_donations w id STATUS_PENDING = d :: tl ->
  find_best_match w d = Some best ->
  write_faults w = [] ->
  match_donation (mkMatchRequest id) w
  = (inl (mkMatchResponse MESSAGE_MATCHED d (Demand.schools best) best),
     mkWorld (set_status_where id STATUS_MATCHED (donations w))
       (set_fulfilled_where (Demand.demand_id best)
          (Demand.quantity_fulfilled best + Donation.quantity d)%Z (demands w))
       []).
Proof.
  intros Hsel Hbest Hf. rewrite (match_donation_commit w id d tl best Hsel Hbest).
  pose proof (commit_cases w id d best) as Hc. cbv zeta in Hc.
  rewrite Hf in Hc. rewrite Hc. reflexivity.
Qed.

Lemma set_fulfilled_where_In (id n : Z) (ds : list Demand.t) (d : Demand.t) :
  In d ds -> Demand.demand_id d = id ->
  In (Demand.set_quantity_fulfilled n d) (set_fulfilled_where id n ds).
Proof.
  intros Hin Hid. unfold set_fulfilled_where.
  apply in_map_iff. exists d. split; [| exact Hin].
  rewrite Hid, Z.eqb_refl. reflexivity.
Qed.

Lemma set_fulfilled_where_value (id n : Z) (ds : list Demand.t) (d : Demand.t) :
  In d (set_fulfilled_where id n ds) -> Demand.demand_id d = id ->
  Demand.quantity_fulfilled d = n.
Proof.
  unfold set_fulfilled_where. intros Hin Hid.
  apply in_map_iff in Hin. destruct Hin as (d0 & Hd0 & _).
  destruct (Demand.demand_id d0 =? id)%Z eqn:E.
  - subst d. reflexivity.
  - subst d. apply Z.eqb_neq in E. contradiction.
Qed.

Lemma set_status_where_matched_In (id : Z) (ds : list Donation.t) (d : Donation.t) :
  In d ds -> Donation.donation_id d = id ->
  In (Donation.set_status STATUS_MATCHED d) (set_status_where id STATUS_MATCHED ds).
Proof.
  intros Hin Hid. unfold set_status_where.
  apply in_map_iff. exists d. split; [| exact Hin].
  rewrite Hid, Z.eqb_refl. reflexivity.
Qed.

Lemma set_status_where_matched_status (id : Z) (ds : list Donation.t) (d : Donation.t) :
  In d (set_status_where id STATUS_MATCHED ds) -> Donation.donation_id d = id ->
  Donation.status d = STATUS_MATCHED.
Proof.
  unfold set_status_where. intros Hin Hid.
  apply in_map_iff in Hin. destruct Hin as (d0 & Hd0 & _).
  destruct (Donation.donation_id d0 =? id)%Z eqn:E.
  - subst d. reflexivity.
  - subst d. apply Z.eqb_neq in E. contradiction.
Qed.

Lemma select_donations_nil (w : World) (id : Z) (s : string) :
  (forall d, In d (donations w) -> Donation.donation_id d = id -> Donation.status d <> s) ->
  select_donations w id s = [].
Proof.
  intros H. destruct (select_donations w id s) as [| d tl] eqn:E; [reflexivity |].
  assert (Hin : In d (select_donations w id s)) by (rewrite E; left; reflexivity).
  apply select_donations_In in Hin. destruct Hin as (Hin & Hid & Hs).
  exfalso. exact (H d Hin Hid Hs).
Qed.

(** The sample store answers as expected. *)
Lemma sample_select (ds : list Demand.t) (faults : list (option string)) :
  select_donations (Sample.world ds faults) 1 STATUS_PENDING = [Sample.don].
Proof. reflexivity. Qed.

Lemma sample_find_single (d : Demand.t) (faults : list (option string)) :
  select_unmet_demands (Sample.world [d] faults) "books" = [d] ->
  Demand.schools d = Sample.school_near ->
  score_of Sample.don d > -1 ->
  find_best_match (Sample.world [d] faults) Sample.don = Some d.
Proof.
  intros Hsel Hs Hgt.
  apply (find_best_match_first_max _ Sample.don [] [] d).
  - exact Hsel.
  - apply sample_within_near. exact Hs.
  - exact Hgt.
  - intros x [].
  - intros x [].
Qed.

Lemma sample_find_D2 (faults : list (option string)) :
  find_best_match (Sample.world [Sample.D2] faults) Sample.don = Some Sample.D2.
Proof.
  apply sample_find_single; [reflexivity | reflexivity |].
  rewrite sample_score_D2. lra.
Qed.

Lemma sample_find_D1 (faults : list (option string)) :
  find_best_match (Sample.world [Sample.D1] faults) Sample.don = Some Sample.D1.
Proof.
  apply sample_find_single; [reflexivity | reflexivity |].
  rewrite sample_score_D1. lra.
Qed.

(** * The claims *)

(** C1, as the claim states it, fails: a pending donation of 10 items is
    matched to an unmet demand that needs 5 and has 0, and the commit succeeds
    with [quantity_fulfilled + quantity = 10 > 5]. *)
Lemma C1_overfill_counterexample :
  ~ (forall (w w' : World) (req : MatchRequest) (resp : MatchResponse),
        match_donation req w = (inl resp, w') ->
        (Demand.quantity_fulfilled (matched_demand resp)
         < Demand.quantity_needed (matched_demand resp))%Z ->
        (Demand.quantity_fulfilled (matched_demand resp)
         + Donation.quantity (donation resp)
         <= Demand.quantity_needed (matched_demand resp))%Z).
Proof.
  intros H.
  pose proof (match_donation_success (Sample.world [Sample.D2] []) 1 Sample.don []
                Sample.D2 (sample_select _ _) (sample_find_D2 _) eq_refl) as Hrun.
  specialize (H _ _ _ _ Hrun). cbn in H. lia.
Qed.

(** C1 (amended). After a successful [match_donation] the donation of the
    response was a pending donation of the store and the matched demand one
    of its unmet demands ([quantity_fulfilled < quantity_needed]); the store
    then holds that demand with [quantity_fulfilled] set to the value read
    plus the donation's [quantity], as does every demand row with its id; and
    this value is at most [quantity_needed] exactly when the donation's
    quantity is at most the remaining need. *)
Theorem match_donation_fulfilled_increment
        (w w' : World) (req : MatchRequest) (resp : MatchResponse) :
  match_donation req w = (inl resp, w') ->
  let dem := matched_demand resp in
  let don := donation resp in
  let new_fulfilled := (Demand.quantity_fulfilled dem + Donation.quantity don)%Z in
  (In don (donations w) /\ Donation.status don = STATUS_PENDING)
  /\ (In dem (demands w)
      /\ (Demand.quantity_fulfilled dem < Demand.quantity_needed dem)%Z)
  /\ In (Demand.set_quantity_fulfilled new_fulfilled dem) (demands w')
  /\ (forall d, In d (demands w') ->
                Demand.demand_id d = Demand.demand_id dem ->
                Demand.quantity_fulfilled d = new_fulfilled)
  /\ ((new_fulfilled <= Demand.quantity_needed dem)%Z <->
      (Donation.quantity don
       <= Demand.quantity_needed dem - Demand.quantity_fulfilled dem)%Z).
Proof.
  intros Hrun dem don new_fulfilled.
  destruct (match_donation_success_inv _ _ _ _ Hrun) as (tl & Hsel & Hbest & Hc & _ & _).
  fold don in Hsel, Hbest, Hc. fold dem in Hbest, Hc.
  assert (Hdon : In don (select_donations w (donation_id req) STATUS_PENDING))
    by (rewrite Hsel; left; reflexivity).
  apply select_donations_In in Hdon. destruct Hdon as (Hdin & _ & Hst).
  destruct (find_best_match_Some _ _ _ Hbest) as (l1 & l2 & Hl & _).
  assert (Hdem : In dem (select_unmet_demands w (Donation.item_category don)))
    by (rewrite Hl; apply in_elt).
  apply select_unmet_demands_In in Hdem. destruct Hdem as (Hin & _ & Hlt).
  destruct (commit_success _ _ _ _ _ Hc) as [_ Hdems].
  repeat split; try assumption.
  - rewrite Hdems. apply set_fulfilled_where_In; [exact Hin | reflexivity].
  - intros d Hd Hid. rewrite Hdems in Hd.
    exact (set_fulfilled_where_value _ _ _ _ Hd Hid).
  - unfold new_fulfilled. lia.
  - unfold new_fulfilled. lia.
Qed.

(** The sample donation matched to [D1]: the store then holds [D1] with 10 fulfilled. *)
Lemma match_donation_fulfilled_increment_witness :
  In (Demand.set_quantity_fulfilled 10 Sample.D1)
     (demands (mkWorld (set_status_where 1 STATUS_MATCHED [Sample.don])
                 (set_fulfilled_where 1 10 [Sample.D1]) [])).
Proof.
  pose proof (match_donation_fulfilled_increment
                (Sample.world [Sample.D1] []) _ (mkMatchRequest 1) _
                (match_donation_success (Sample.world [Sample.D1] []) 1 Sample.don []
                   Sample.D1 (sample_select _ _) (sample_find_D1 _) eq_refl)) as H.
  cbv zeta in H. destruct H as (_ & _ & H & _). exact H.
Defined.

(** C5. When a pending donation is fetched, a demand is selected, the first
    write (donation status) goes through and the second write (demand
    quantity) raises with message [msg], [match_donation] raises the 500
    exception whose detail is the fixed prefix followed by [msg]; nothing is
    rolled back: the fetched donation, and every donation with the requested
    id, is stored with status "matched", and the demands are untouched. *)
Theorem match_donation_second_write_fails
        (w : World) (id : Z) (don : Donation.t) (tl : list Donation.t)
        (best : Demand.t) (msg : string) (rest : list (option string)) :
  select_donations w id STATUS_PENDING = don :: tl ->
  find_best_match w don = Some best ->
  write_faults w = None :: Some msg :: rest ->
  exists w',
    match_donation (mkMatchRequest id) w
    = (inr (mkHTTPException 500 (DETAIL_UPDATE_FAILED ++ msg)%string), w')
    /\ In (Donation.set_status STATUS_MATCHED don) (donations w')
    /\ (forall d, In d (donations w') -> Donation.donation_id d = id ->
                  Donation.status d = STATUS_MATCHED)
    /\ demands w' = demands w.
Proof.
  intros Hsel Hbest Hf.
  exists (mkWorld (set_status_where id STATUS_MATCHED (donations w)) (demands w) rest).
  rewrite (match_donation_commit w id don tl best Hsel Hbest).
  pose proof (commit_cases w id don best) as Hc. cbv zeta in Hc.
  rewrite Hf in Hc. rewrite Hc. cbn [donations demands str].
  assert (Hdon : In don (select_donations w id STATUS_PENDING))
    by (rewrite Hsel; left; reflexivity).
  apply select_donations_In in Hdon. destruct Hdon as (Hin & Hid & _).
  repeat split.
  - apply set_status_where_matched_In; assumption.
  - intros d Hd Hdid. exact (set_status_where_matched_status _ _ _ Hd Hdid).
Qed.

(** The sample donation and [D1], with the second write scheduled to fail. *)
Lemma match_donation_second_write_fails_witness :
  exists w',
    match_donation (mkMatchRequest 1)
      (Sample.world [Sample.D1] [None; Some "connection reset"])
    = (inr (mkHTTPException 500 (DETAIL_UPDATE_FAILED ++ "connection reset")%string), w')
    /\ In (Donation.set_status STATUS_MATCHED Sample.don) (donations w')
    /\ (forall d, In d (donations w') -> Donation.donation_id d = 1%Z ->
                  Donation.status d = STATUS_MATCHED)
    /\ demands w' = [Sample.D1].
Proof.
  exact (match_donation_second_write_fails
           (Sample.world [Sample.D1] [None; Some "connection reset"])
           1 Sample.don [] Sample.D1 "connection reset" []
           (sample_select _ _) (sample_find_D1 _) eq_refl).
Defined.

(** C6. If no stored donation with the requested id has status "pending" -
    because there is none, because its status is something else, or because
    an earlier call of [match_donation] on this id succeeded and left this
    store - then [match_donation] raises 404 with the "no pending donation"
    detail and the store is exactly as before. *)
Theorem match_donation_not_pending (w : World) (id : Z) :
  (forall d, In d (donations w) -> Donation.donation_id d = id ->
             Donation.status d <> STATUS_PENDING)
  \/ (exists w0 resp, match_donation (mkMatchRequest id) w0 = (inl resp, w)) ->
  match_donation (mkMatchRequest id) w
  = (inr (mkHTTPException 404 DETAIL_NO_PENDING_DONATION), w).
Proof.
  intros [Hnone | (w0 & resp & Hprev)]; apply match_donation_no_pending.
  - apply select_donations_nil. exact Hnone.
  - destruct (match_donation_success_inv _ _ _ _ Hprev) as (_ & _ & _ & Hc & _).
    cbn [donation_id] in Hc.
    destruct (commit_success _ _ _ _ _ Hc) as [Hdons _].
    exact (set_status_where_matched_no_pending id (donations w0) w Hdons).
Qed.

(** Two calls in a row on the sample donation: success, then 404. *)
Lemma match_donation_not_pending_witness :
  let w1 := mkWorld (set_status_where 1 STATUS_MATCHED [Sample.don])
              (set_fulfilled_where 1 10 [Sample.D1]) [] in
  match_donation (mkMatchRequest 1) (Sample.world [Sample.D1] [])
  = (inl (mkMatchResponse MESSAGE_MATCHED Sample.don Sample.school_near Sample.D1), w1)
  /\ match_donation (mkMatchRequest 1) w1
     = (inr (mkHTTPException 404 DETAIL_NO_PENDING_DONATION), w1).
Proof.
  cbv zeta.
  pose proof (match_donation_success (Sample.world [Sample.D1] []) 1 Sample.don []
                Sample.D1 (sample_select _ _) (sample_find_D1 _) eq_refl) as Hfirst.
  split; [exact Hfirst |].
  apply match_donation_not_pending. right.
  exists (Sample.world [Sample.D1] []). eexists. exact Hfirst.
Defined.

(** C2. For a distance [d <= 200] the score is exactly
    [(priority / 5) * 0.5 + (1 - d / 200) * 0.3 + s], where [s] is [0.2] when
    the donation's item name equals the demand's character for character and
    [0.0] otherwise; and it is this number, taken at the distance from the
    donor to the demand's school, that one iteration of the loop compares
    with the best score so far. *)
Theorem total_score_formula (donation : Donation.t) (demand : Demand.t) (d : R) :
  d <= 200 ->
  (Donation.item_name donation = Demand.item_name demand ->
   total_score donation demand d
   = (IZR (Demand.priority demand) / 5) * 0.5 + (1 - d / 200) * 0.3 + 0.2)
  /\ (Donation.item_name donation <> Demand.item_name demand ->
      total_score donation demand d
      = (IZR (Demand.priority demand) / 5) * 0.5 + (1 - d / 200) * 0.3 + 0.0)
  /\ (d = demand_distance donation demand ->
      forall st : scan_state,
        loop_body donation st demand
        = if Rgtb (total_score donation demand d) (snd st)
          then (Some demand, total_score donation demand d) else st).
Proof.
  intros Hd.
  unfold total_score, priority_score, distance_score, suitability_score,
    W_PRIORITY, W_DISTANCE, W_SUITABILITY, MAX_DISTANCE.
  repeat split.
  - intros Heq. apply String.eqb_eq in Heq. rewrite Heq. lra.
  - intros Hneq. apply String.eqb_neq in Hneq. rewrite Hneq. lra.
  - intros -> st. unfold loop_body. cbv zeta.
    rewrite (Rgtb_false _ MAX_DISTANCE) by (unfold MAX_DISTANCE; exact Hd).
    reflexivity.
Qed.

(** The sample donation and [D1] at 100 km. *)
Lemma total_score_formula_witness :
  total_score Sample.don Sample.D1 100
  = (IZR 5 / 5) * 0.5 + (1 - 100 / 200) * 0.3 + 0.2.
Proof.
  apply (total_score_formula Sample.don Sample.D1 100); [lra | reflexivity].
Defined.

(** C7. With the priority in [0, 5] and the distance in [0, 200] the score
    lies in [0, 1]. *)
Theorem total_score_unit_interval (donation : Donation.t) (demand : Demand.t) (d : R) :
  (0 <= Demand.priority demand <= 5)%Z ->
  0 <= d <= 200 ->
  0 <= total_score donation demand d <= 1.
Proof.
  intros [Hp0 Hp5] [Hd0 Hd200].
  apply IZR_le in Hp0, Hp5.
  unfold total_score, priority_score, distance_score, suitability_score,
    W_PRIORITY, W_DISTANCE, W_SUITABILITY, MAX_DISTANCE.
  destruct (String.eqb _ _); lra.
Qed.

(** The sample donation and [D1] at 100 km. *)
Lemma total_score_unit_interval_witness :
  0 <= total_score Sample.don Sample.D1 100 <= 1.
Proof.
  apply total_score_unit_interval; [cbn; lia | lra].
Defined.




(** C9. The distance from a point to itself is 0, and the distance is
    symmetric in its two points. *)
Theorem calculate_distance_zero_and_symmetric (lat1 lon1 lat2 lon2 : R) :
  calculate_distance lat1 lon1 lat1 lon1 = 0
  /\ calculate_distance lat1 lon1 lat2 lon2 = calculate_distance lat2 lon2 lat1 lon1.
Proof.
  split; [apply calculate_distance_same | apply calculate_distance_sym].
Qed.

Lemma sample_find_far_then_near :
  find_best_match (Sample.world [Sample.D3; Sample.D2] []) Sample.don = Some Sample.D2.
Proof.
  apply (find_best_match_first_max _ Sample.don [Sample.D3] [] Sample.D2).
  - reflexivity.
  - apply sample_within_near. reflexivity.
  - rewrite sample_score_D2. lra.
  - intros x [<- | []] Hw. exfalso. exact (sample_far_out_of_range Hw).
  - intros x [].
Qed.

(** C4. A demand returned by [find_best_match] lies at most 200 km (great
    circle, donor to school) from the donor; so no candidate farther than
    200 km is the returned demand, whatever its priority or name. *)
Theorem find_best_match_within_max_distance
        (w : World) (donation : Donation.t) (best : Demand.t) :
  find_best_match w donation = Some best ->
  calculate_distance
    (Donation.donor_lat donation) (Donation.donor_lng donation)
    (School.location_lat (Demand.schools best))
    (School.location_lng (Demand.schools best)) <= 200
  /\ (forall far : Demand.t,
         calculate_distance
           (Donation.donor_lat donation) (Donation.donor_lng donation)
           (School.location_lat (Demand.schools far))
           (School.location_lng (Demand.schools far)) > 200 ->
         best <> far).
Proof.
  intros H.
  destruct (find_best_match_Some _ _ _ H) as (l1 & l2 & _ & Hw & _).
  unfold within_range, demand_distance, MAX_DISTANCE in Hw. cbv zeta in Hw.
  split; [exact Hw |].
  intros far Hfar ->. lra.
Qed.

(** The far [D3] comes first and would score 1.0; the near [D2] is returned. *)
Lemma find_best_match_within_max_distance_witness :
  calculate_distance 0 0 0 0 <= 200
  /\ Sample.D2 <> Sample.D3.
Proof.
  destruct (find_best_match_within_max_distance
              (Sample.world [Sample.D3; Sample.D2] []) Sample.don Sample.D2
              sample_find_far_then_near) as [Hnear Hfar].
  split; [exact Hnear |].
  apply Hfar. change (demand_distance Sample.don Sample.D3 > 200).
  rewrite sample_distance_far. pose proof PI2_1. lra.
Defined.

(** * Further properties of the selection *)

(** X6. A demand returned by [find_best_match] is a stored demand of the
    donation's item category with [quantity_fulfilled < quantity_needed], and
    no candidate within 200 km has a greater score. *)
Theorem find_best_match_optimal (w : World) (donation : Donation.t) (best : Demand.t) :
  find_best_match w donation = Some best ->
  (In best (demands w)
   /\ Demand.item_category best = Donation.item_category donation
   /\ (Demand.quantity_fulfilled best < Demand.quantity_needed best)%Z)
  /\ (forall c, In c (select_unmet_demands w (Donation.item_category donation)) ->
                within_range donation c ->
                score_of donation c <= score_of donation best).
Proof.
  intros H.
  destruct (find_best_match_Some _ _ _ H) as (l1 & l2 & Hl & Hw & Hgt & H1 & H2).
  split.
  - apply select_unmet_demands_In. rewrite Hl. apply in_elt.
  - intros c Hc Hwc. rewrite Hl in Hc.
    apply in_app_or in Hc. destruct Hc as [Hc | [<- | Hc]].
    + left. apply H1; assumption.
    + right. reflexivity.
    + apply H2; assumption.
Qed.

Lemma find_best_match_optimal_witness :
  In Sample.D2 [Sample.D3; Sample.D2]
  /\ Demand.item_category Sample.D2 = Donation.item_category Sample.don
  /\ (Demand.quantity_fulfilled Sample.D2 < Demand.quantity_needed Sample.D2)%Z.
Proof.
  exact (proj1 (find_best_match_optimal
                  (Sample.world [Sample.D3; Sample.D2] []) Sample.don Sample.D2
                  sample_find_far_then_near)).
Defined.

(** * Further properties of the coordinator *)

(** Every way a call can go. *)
Lemma match_donation_outcome (w : World) (id : Z) :
  match select_donations w id STATUS_PENDING with
  | [] =>
      match_donation (mkMatchRequest id) w
      = (inr (mkHTTPException 404 DETAIL_NO_PENDING_DONATION), w)
  | d :: _ =>
      match find_best_match w d with
      | None =>
          match_donation (mkMatchRequest id) w
          = (inr (mkHTTPException 404 DETAIL_NO_SUITABLE_SCHOOL), w)
      | Some best =>
          let n := (Demand.quantity_fulfilled best + Donation.quantity d)%Z in
          let ok := mkMatchResponse MESSAGE_MATCHED d (Demand.schools best) best in
          let failed msg := mkHTTPException 500 (DETAIL_UPDATE_FAILED ++ msg)%string in
          let dons' := set_status_where id STATUS_MATCHED (donations w) in
          let dems' := set_fulfilled_where (Demand.demand_id best) n (demands w) in
          match write_faults w with
          | [] | [None] =>
              match_donation (mkMatchRequest id) w = (inl ok, mkWorld dons' dems' [])
          | None :: None :: rest =>
              match_donation (mkMatchRequest id) w = (inl ok, mkWorld dons' dems' rest)
          | Some msg :: rest =>
              match_donation (mkMatchRequest id) w
              = (inr (failed msg), mkWorld (donations w) (demands w) rest)
          | None :: Some msg :: rest =>
              match_donation (mkMatchRequest id) w
              = (inr (failed msg), mkWorld dons' (demands w) rest)
          end
      end
  end.
Proof.
  destruct (select_donations w id STATUS_PENDING) as [| d tl] eqn:Hsel.
  - apply match_donation_no_pending. exact Hsel.
  - destruct (find_best_match w d) as [best |] eqn:Hbest.
    + cbv zeta. rewrite (match_donation_commit w id d tl best Hsel Hbest).
      pose proof (commit_cases w id d best) as Hc. cbv zeta in Hc.
      destruct (write_faults w) as [| [msg |] [| [msg' |] rest]];
        rewrite Hc; reflexivity.
    + apply (match_donation_no_demand w id d tl Hsel Hbest).
Qed.

(** [find_best_match] reads the demands only. *)
Lemma find_best_match_demands (w w' : World) (donation : Donation.t) :
  demands w' = demands w -> find_best_match w' donation = find_best_match w donation.
Proof.
  intros H. unfold find_best_match, select_unmet_demands. rewrite H. reflexivity.
Qed.

Lemma select_donations_donations (w w' : World) (id : Z) (s : string) :
  donations w' = donations w -> select_donations w' id s = select_donations w id s.
Proof. intros H. unfold select_donations. rewrite H. reflexivity. Qed.

(** X8. When the first write (the donation's status) raises with message
    [msg], [match_donation] raises 500 with the prefix followed by [msg], the
    second write is not attempted and both tables are as before: the donation
    is still pending, and a further call on these tables whose writes go
    through matches it to the same demand. *)
Theorem match_donation_first_write_fails
        (w : World) (id : Z) (don : Donation.t) (tl : list Donation.t)
        (best : Demand.t) (msg : string) (rest : list (option string)) :
  select_donations w id STATUS_PENDING = don :: tl ->
  find_best_match w don = Some best ->
  write_faults w = Some msg :: rest ->
  exists w',
    match_donation (mkMatchRequest id) w
    = (inr (mkHTTPException 500 (DETAIL_UPDATE_FAILED ++ msg)%string), w')
    /\ donations w' = donations w
    /\ demands w' = demands w
    /\ write_faults w' = rest
    /\ (exists w'',
          match_donation (mkMatchRequest id) (mkWorld (donations w') (demands w') [])
          = (inl (mkMatchResponse MESSAGE_MATCHED don (Demand.schools best) best), w'')).
Proof.
  intros Hsel Hbest Hf.
  exists (mkWorld (donations w) (demands w) rest).
  pose proof (match_donation_outcome w id) as H.
  rewrite Hsel, Hbest in H. cbv zeta in H. rewrite Hf in H.
  split; [exact H |]. cbn [donations demands write_faults].
  repeat split.
  pose proof (match_donation_outcome (mkWorld (donations w) (demands w) []) id) as H2.
  rewrite (select_donations_donations w (mkWorld (donations w) (demands w) [])
             id STATUS_PENDING eq_refl), Hsel in H2.
  rewrite (find_best_match_demands w (mkWorld (donations w) (demands w) [])
             don eq_refl), Hbest in H2.
  cbv zeta in H2. cbn [write_faults] in H2.
  eexists. exact H2.
Qed.

Lemma match_donation_first_write_fails_witness :
  exists w',
    match_donation (mkMatchRequest 1) (Sample.world [Sample.D1] [Some "timeout"])
    = (inr (mkHTTPException 500 (DETAIL_UPDATE_FAILED ++ "timeout")%string), w')
    /\ donations w' = [Sample.don]
    /\ demands w' = [Sample.D1]
    /\ write_faults w' = []
    /\ (exists w'',
          match_donation (mkMatchRequest 1) (mkWorld (donations w') (demands w') [])
          = (inl (mkMatchResponse MESSAGE_MATCHED Sample.don
                    (Demand.schools Sample.D1) Sample.D1), w'')).
Proof.
  exact (match_donation_first_write_fails
           (Sample.world [Sample.D1] [Some "timeout"]) 1 Sample.don []
           Sample.D1 "timeout" [] (sample_select _ _) (sample_find_D1 _) eq_refl).
Defined.

(** X9. A call that fails on the second write cannot be repeated: the
    donation is left with status "matched", so the next call on the same id
    raises the 404 of a donation that is not pending and changes nothing,
    while the demand still has the quantity it had. *)
Theorem match_donation_partial_failure_not_retryable
        (w : World) (id : Z) (don : Donation.t) (tl : list Donation.t)
        (best : Demand.t) (msg : string) (rest : list (option string)) :
  select_donations w id STATUS_PENDING = don :: tl ->
  find_best_match w don = Some best ->
  write_faults w = None :: Some msg :: rest ->
  exists e w',
    match_donation (mkMatchRequest id) w = (inr e, w')
    /\ status_code e = 500%Z
    /\ demands w' = demands w
    /\ match_donation (mkMatchRequest id) w'
       = (inr (mkHTTPException 404 DETAIL_NO_PENDING_DONATION), w').
Proof.
  intros Hsel Hbest Hf.
  pose proof (match_donation_outcome w id) as H.
  rewrite Hsel, Hbest in H. cbv zeta in H. rewrite Hf in H.
  eexists. eexists. split; [exact H |]. cbn [status_code demands].
  repeat split.
  apply match_donation_no_pending.
  apply (set_status_where_matched_no_pending id (donations w)). reflexivity.
Qed.

Lemma match_donation_partial_failure_not_retryable_witness :
  exists e w',
    match_donation (mkMatchRequest 1) (Sample.world [Sample.D1] [None; Some "timeout"])
    = (inr e, w')
    /\ status_code e = 500%Z
    /\ demands w' = [Sample.D1]
    /\ match_donation (mkMatchRequest 1) w'
       = (inr (mkHTTPException 404 DETAIL_NO_PENDING_DONATION), w').
Proof.
  exact (match_donation_partial_failure_not_retryable
           (Sample.world [Sample.D1] [None; Some "timeout"]) 1 Sample.don []
           Sample.D1 "timeout" [] (sample_select _ _) (sample_find_D1 _) eq_refl).
Defined.

Lemma set_status_where_rows (id : Z) (s : string) (rows : list Donation.t) :
  Forall2 (fun d d' => d' = d
                       \/ (Donation.donation_id d = id /\ d' = Donation.set_status s d))
          rows (set_status_where id s rows).
Proof.
  induction rows as [| d rows IH]; cbn [set_status_where map]; constructor.
  - destruct (Donation.donation_id d =? id)%Z eqn:E; [right | left; reflexivity].
    apply Z.eqb_eq in E. split; [exact E | reflexivity].
  - exact IH.
Qed.

Lemma set_fulfilled_where_rows (id n : Z) (rows : list Demand.t) :
  Forall2 (fun d d' => d' = d
                       \/ (Demand.demand_id d = id
                           /\ d' = Demand.set_quantity_fulfilled n d))
          rows (set_fulfilled_where id n rows).
Proof.
  induction rows as [| d rows IH]; cbn [set_fulfilled_where map]; constructor.
  - destruct (Demand.demand_id d =? id)%Z eqn:E; [right | left; reflexivity].
    apply Z.eqb_eq in E. split; [exact E | reflexivity].
  - exact IH.
Qed.

Lemma Forall2_same {A : Type} (P : A -> A -> Prop) (l : list A) :
  (forall x, P x x) -> Forall2 P l l.
Proof. intros H. induction l; constructor; auto. Qed.

(** X11. Whatever the outcome, [match_donation] neither adds nor removes nor
    reorders rows.  A donation row is left as it was, or it has the requested
    id and only its status is set to "matched"; a demand row is left as it
    was, or only its [quantity_fulfilled] is set. *)
Theorem match_donation_frame
        (w w' : World) (req : MatchRequest) (out : MatchResponse + HTTPException) :
  match_donation req w = (out, w') ->
  Forall2 (fun d d' =>
             d' = d
             \/ (Donation.donation_id d = donation_id req
                 /\ d' = Donation.set_status STATUS_MATCHED d))
          (donations w) (donations w')
  /\ Forall2 (fun d d' =>
                d' = d \/ exists n, d' = Demand.set_quantity_fulfilled n d)
             (demands w) (demands w').
Proof.
  destruct req as [id]. cbn [donation_id]. intros Hrun.
  assert (Hdon_same : Forall2 (fun d d' : Donation.t =>
             d' = d \/ (Donation.donation_id d = id
                        /\ d' = Donation.set_status STATUS_MATCHED d))
            (donations w) (donations w))
    by (apply Forall2_same; intros x; left; reflexivity).
  assert (Hdem_same : Forall2 (fun d d' : Demand.t =>
             d' = d \/ exists n, d' = Demand.set_quantity_fulfilled n d)
            (demands w) (demands w))
    by (apply Forall2_same; intros x; left; reflexivity).
  assert (Hdem_upd : forall i n, Forall2 (fun d d' : Demand.t =>
             d' = d \/ exists n, d' = Demand.set_quantity_fulfilled n d)
            (demands w) (set_fulfilled_where i n (demands w))).
  { intros i n. eapply Forall2_impl; [| apply set_fulfilled_where_rows].
    intros a b [H | [_ H]]; [left; exact H | right; exists n; exact H]. }
  pose proof (set_status_where_rows id STATUS_MATCHED (donations w)) as Hdon_upd.
  pose proof (match_donation_outcome w id) as H.
  destruct (select_donations w id STATUS_PENDING) as [| d tl].
  - rewrite H in Hrun. injection Hrun as <- <-. split; assumption.
  - destruct (find_best_match w d) as [best |].
    + cbv zeta in H.
      destruct (write_faults w) as [| [msg |] [| [msg' |] rest]];
        rewrite H in Hrun; injection Hrun as <- <-;
        cbn [donations demands]; split; auto.
    + rewrite H in Hrun. injection Hrun as <- <-. split; assumption.
Qed.

Lemma match_donation_frame_witness :
  Forall2 (fun d d' =>
             d' = d
             \/ (Donation.donation_id d = 1%Z
                 /\ d' = Donation.set_status STATUS_MATCHED d))
          [Sample.don] (set_status_where 1 STATUS_MATCHED [Sample.don])
  /\ Forall2 (fun d d' =>
                d' = d \/ exists n, d' = Demand.set_quantity_fulfilled n d)
             [Sample.D1] (set_fulfilled_where 1 10 [Sample.D1]).
Proof.
  exact (match_donation_frame (Sample.world [Sample.D1] []) _ (mkMatchRequest 1) _
           (match_donation_success (Sample.world [Sample.D1] []) 1 Sample.don []
              Sample.D1 (sample_select _ _) (sample_find_D1 _) eq_refl)).
Defined.

(** X12. A successful call answers with the fixed message, the first pending
    row of the requested id as it was read (status still "pending"), the
    demand [find_best_match] returned for it, a row of the demands as they
    were read, and that demand's school.  Both writes were applied, consuming
    two entries of the schedule: the donations are the old ones with every
    row of the requested id set to "matched", and the demands are the old
    ones with [quantity_fulfilled] of every row of the matched demand's id set
    to the value read plus the donation's quantity. *)
Theorem match_donation_success_response
        (w w' : World) (req : MatchRequest) (resp : MatchResponse) :
  match_donation req w = (inl resp, w') ->
  message resp = MESSAGE_MATCHED
  /\ matched_school resp = Demand.schools (matched_demand resp)
  /\ (exists tl,
        select_donations w (donation_id req) STATUS_PENDING = donation resp :: tl)
  /\ Donation.status (donation resp) = STATUS_PENDING
  /\ In (Donation.set_status STATUS_MATCHED (donation resp)) (donations w')
  /\ (forall d, In d (donations w') -> Donation.donation_id d = donation_id req ->
                Donation.status d = STATUS_MATCHED)
  /\ write_faults w' = skipn 2 (write_faults w)
  /\ find_best_match w (donation resp) = Some (matched_demand resp)
  /\ In (matched_demand resp) (demands w)
  /\ donations w' = set_status_where (donation_id req) STATUS_MATCHED (donations w)
  /\ demands w'
     = set_fulfilled_where (Demand.demand_id (matched_demand resp))
         (Demand.quantity_fulfilled (matched_demand resp)
          + Donation.quantity (donation resp))%Z
         (demands w).
Proof.
  intros Hrun.
  destruct (match_donation_success_inv _ _ _ _ Hrun) as (tl & Hsel & Hbest & Hc & Hm & Hs).
  assert (Hdon : In (donation resp) (select_donations w (donation_id req) STATUS_PENDING))
    by (rewrite Hsel; left; reflexivity).
  apply select_donations_In in Hdon. destruct Hdon as (Hin & Hid & Hst).
  destruct (commit_success _ _ _ _ _ Hc) as [Hdons Hdems].
  destruct (find_best_match_Some _ _ _ Hbest) as (l1 & l2 & Hl & _).
  assert (Hdem : In (matched_demand resp)
                    (select_unmet_demands w (Donation.item_category (donation resp))))
    by (rewrite Hl; apply in_elt).
  apply select_unmet_demands_In in Hdem. destruct Hdem as (Hdem & _ & _).
  split; [exact Hm |]. split; [exact Hs |]. split; [exists tl; exact Hsel |].
  split; [exact Hst |]. split; [| split; [| split; [| repeat split; assumption]]].
  - rewrite Hdons. apply set_status_where_matched_In; assumption.
  - intros d Hd Hdid. rewrite Hdons in Hd.
    exact (set_status_where_matched_status _ _ _ Hd Hdid).
  - pose proof (commit_cases w (donation_id req) (donation resp) (matched_demand resp))
      as Hcc. cbv zeta in Hcc.
    destruct (write_faults w) as [| [msg |] [| [msg' |] rest]];
      rewrite Hcc in Hc; try discriminate; injection Hc as <-; reflexivity.
Qed.

Lemma match_donation_success_response_witness :
  Donation.status Sample.don = STATUS_PENDING
  /\ In (Donation.set_status STATUS_MATCHED Sample.don)
        (set_status_where 1 STATUS_MATCHED [Sample.don])
  /\ find_best_match (Sample.world [Sample.D1] []) Sample.don = Some Sample.D1
  /\ set_fulfilled_where 1 10 [Sample.D1]
     = set_fulfilled_where (Demand.demand_id Sample.D1)
         (Demand.quantity_fulfilled Sample.D1 + Donation.quantity Sample.don)%Z
         [Sample.D1].
Proof.
  pose proof (match_donation_success_response
                (Sample.world [Sample.D1] []) _ (mkMatchRequest 1) _
                (match_donation_success (Sample.world [Sample.D1] []) 1 Sample.don []
                   Sample.D1 (sample_select _ _) (sample_find_D1 _) eq_refl)) as H.
  destruct H as (_ & _ & _ & Hst & Hin & _ & _ & Hbest & _ & _ & Hdems).
  split; [exact Hst |]. split; [exact Hin |]. split; [exact Hbest | exact Hdems].
Defined.

Lemma total_fulfilled_untouched (id n : Z) (rows : list Demand.t) :
  ~ In id (map Demand.demand_id rows) ->
  total_fulfilled (set_fulfilled_where id n rows) = total_fulfilled rows.
Proof.
  induction rows as [| d rows IH]; intros Hnot; [reflexivity |].
  cbn [set_fulfilled_where map total_fulfilled fold_right] in *.
  destruct (Demand.demand_id d =? id)%Z eqn:E.
  - apply Z.eqb_eq in E. exfalso. apply Hnot. left. exact E.
  - fold (set_fulfilled_where id n rows). fold (total_fulfilled rows).
    fold (total_fulfilled (set_fulfilled_where id n rows)).
    rewrite IH; [reflexivity |]. intros H. apply Hnot. right. exact H.
Qed.

Lemma total_fulfilled_update (n : Z) (rows : list Demand.t) (dem : Demand.t) :
  NoDup (map Demand.demand_id rows) ->
  In dem rows ->
  (total_fulfilled (set_fulfilled_where (Demand.demand_id dem) n rows)
   = total_fulfilled rows - Demand.quantity_fulfilled dem + n)%Z.
Proof.
  induction rows as [| d rows IH]; intros Hnd Hin; [destruct Hin |].
  cbn [map] in Hnd. inversion Hnd as [| ? ? Hnotin Hnd']; subst.
  cbn [set_fulfilled_where map total_fulfilled fold_right].
  fold (set_fulfilled_where (Demand.demand_id dem) n rows).
  fold (total_fulfilled rows).
  fold (total_fulfilled (set_fulfilled_where (Demand.demand_id dem) n rows)).
  destruct Hin as [-> | Hin].
  - rewrite Z.eqb_refl. cbn [Demand.set_quantity_fulfilled Demand.quantity_fulfilled].
    rewrite (total_fulfilled_untouched _ n rows Hnotin). lia.
  - destruct (Demand.demand_id d =? Demand.demand_id dem)%Z eqn:E.
    + apply Z.eqb_eq in E. exfalso. apply Hnotin. rewrite E.
      apply in_map. exact Hin.
    + rewrite (IH Hnd' Hin). lia.
Qed.

(** X13. When the demand ids of the table are pairwise distinct, a successful
    call raises the total of [quantity_fulfilled] over all demands by exactly
    the donation's [quantity]. *)
Theorem match_donation_total_fulfilled
        (w w' : World) (req : MatchRequest) (resp : MatchResponse) :
  NoDup (map Demand.demand_id (demands w)) ->
  match_donation req w = (inl resp, w') ->
  (total_fulfilled (demands w')
   = total_fulfilled (demands w) + Donation.quantity (donation resp))%Z.
Proof.
  intros Hnd Hrun.
  destruct (match_donation_success_inv _ _ _ _ Hrun) as (tl & _ & Hbest & Hc & _ & _).
  destruct (commit_success _ _ _ _ _ Hc) as [_ Hdems].
  destruct (find_best_match_Some _ _ _ Hbest) as (l1 & l2 & Hl & _).
  assert (Hin : In (matched_demand resp)
                   (select_unmet_demands w (Donation.item_category (donation resp))))
    by (rewrite Hl; apply in_elt).
  apply select_unmet_demands_In in Hin. destruct Hin as (Hin & _ & _).
  rewrite Hdems, (total_fulfilled_update _ _ _ Hnd Hin). lia.
Qed.

Lemma match_donation_total_fulfilled_witness :
  (total_fulfilled (set_fulfilled_where 1 10 [Sample.D1; Sample.D2])
   = total_fulfilled [Sample.D1; Sample.D2] + 10)%Z.
Proof.
  refine (match_donation_total_fulfilled
            (Sample.world [Sample.D1; Sample.D2] []) _ (mkMatchRequest 1) _ _
            (match_donation_success (Sample.world [Sample.D1; Sample.D2] []) 1
               Sample.don [] Sample.D1 (sample_select _ _) _ eq_refl)).
  - cbn. repeat constructor; cbn; intuition discriminate.
  - apply (find_best_match_first_max _ Sample.don [] [Sample.D2] Sample.D1).
    + reflexivity.
    + apply sample_within_near. reflexivity.
    + rewrite sample_score_D1. lra.
    + intros x [].
    + intros x [<- | []] _. rewrite sample_score_D2, sample_score_D1. lra.
Defined.

(** * Properties of get_pending_donations *)

Lemma select_donations_by_status_In (w : World) (s : string) (d : Donation.t) :
  In d (select_donations_by_status w s) <->
  In d (donations w) /\ Donation.status d = s.
Proof.
  unfold select_donations_by_status. rewrite filter_In, String.eqb_eq. reflexivity.
Qed.

Lemma get_pending_donations_run (w : World) :
  get_pending_donations w
  = (inl (mkPendingDonationsResponse (select_donations_by_status w STATUS_PENDING)), w).
Proof. reflexivity. Qed.

Lemma pending_after_matched (id : Z) (rows : list Donation.t) :
  filter (fun d => String.eqb (Donation.status d) STATUS_PENDING)
         (set_status_where id STATUS_MATCHED rows)
  = filter (fun d => negb (Donation.donation_id d =? id)%Z)
           (filter (fun d => String.eqb (Donation.status d) STATUS_PENDING) rows).
Proof.
  induction rows as [| d rows IH]; [reflexivity |].
  cbn [set_status_where map filter]. fold (set_status_where id STATUS_MATCHED rows).
  destruct (Donation.donation_id d =? id)%Z eqn:E.
  - cbn [Donation.set_status Donation.status].
    change (String.eqb STATUS_MATCHED STATUS_PENDING) with false. cbv iota.
    destruct (String.eqb (Donation.status d) STATUS_PENDING); [| exact IH].
    cbn [filter]. rewrite E. cbn [negb]. exact IH.
  - destruct (String.eqb (Donation.status d) STATUS_PENDING); [| exact IH].
    cbn [filter]. rewrite E. cbn [negb]. f_equal. exact IH.
Qed.

(** X14. [get_pending_donations] lists the stored donations whose status is
    "pending", in table order, and changes nothing; after a successful
    [match_donation] on an id it lists what it listed before, less the
    donations of that id. *)
Theorem get_pending_donations_after_match
        (w w' : World) (req : MatchRequest) (resp : MatchResponse) :
  match_donation req w = (inl resp, w') ->
  exists before after,
    get_pending_donations w = (inl before, w)
    /\ get_pending_donations w' = (inl after, w')
    /\ (forall d, In d (pending_donations before) <->
                  In d (donations w) /\ Donation.status d = STATUS_PENDING)
    /\ In (donation resp) (pending_donations before)
    /\ pending_donations after
       = filter (fun d => negb (Donation.donation_id d =? donation_id req)%Z)
                (pending_donations before).
Proof.
  intros Hrun.
  destruct (match_donation_success_inv _ _ _ _ Hrun) as (tl & Hsel & _ & Hc & _ & _).
  destruct (commit_success _ _ _ _ _ Hc) as [Hdons _].
  exists (mkPendingDonationsResponse (select_donations_by_status w STATUS_PENDING)),
         (mkPendingDonationsResponse (select_donations_by_status w' STATUS_PENDING)).
  rewrite !get_pending_donations_run. cbn [pending_donations].
  split; [reflexivity |]. split; [reflexivity |]. split; [| split].
  - intros d. apply select_donations_by_status_In.
  - assert (Hdon : In (donation resp)
                      (select_donations w (donation_id req) STATUS_PENDING))
      by (rewrite Hsel; left; reflexivity).
    apply select_donations_In in Hdon. apply select_donations_by_status_In. tauto.
  - unfold select_donations_by_status. rewrite Hdons. apply pending_after_matched.
Qed.

Lemma get_pending_donations_after_match_witness :
  exists before after,
    get_pending_donations (Sample.world [Sample.D1] []) = (inl before, Sample.world [Sample.D1] [])
    /\ pending_donations before = [Sample.don]
    /\ pending_donations after = [].
Proof.
  destruct (get_pending_donations_after_match
              (Sample.world [Sample.D1] []) _ (mkMatchRequest 1) _
              (match_donation_success (Sample.world [Sample.D1] []) 1 Sample.don []
                 Sample.D1 (sample_select _ _) (sample_find_D1 _) eq_refl))
    as (before & after & Hb & _ & _ & _ & Hafter).
  exists before, after. split; [exact Hb |].
  rewrite get_pending_donations_run in Hb. injection Hb as <-.
  split; [reflexivity | exact Hafter].
Defined.

Lemma select_donations_as_pending (w : World) (id : Z) :
  select_donations w id STATUS_PENDING
  = filter (fun d => (Donation.donation_id d =? id)%Z)
           (select_donations_by_status w STATUS_PENDING).
Proof.
  unfold select_donations, select_donations_by_status.
  induction (donations w) as [| d rows IH]; [reflexivity |].
  cbn [filter].
  destruct (Donation.donation_id d =? id)%Z eqn:E;
    destruct (String.eqb (Donation.status d) STATUS_PENDING) eqn:S;
    cbn [andb filter]; rewrite ?E; try exact IH.
  f_equal. exact IH.
Qed.

(** X15. The two endpoints agree on what is pending: [match_donation] raises
    the 404 of a donation that is not pending exactly for the ids that no
    donation listed by [get_pending_donations] carries; for a listed id it
    goes on with the first listed donation of that id. *)
Theorem match_donation_pending_agreement (w : World) (id : Z) :
  let listed := select_donations_by_status w STATUS_PENDING in
  get_pending_donations w = (inl (mkPendingDonationsResponse listed), w)
  /\ (match_donation (mkMatchRequest id) w
      = (inr (mkHTTPException 404 DETAIL_NO_PENDING_DONATION), w)
      <-> (forall d, In d listed -> Donation.donation_id d <> id))
  /\ (forall resp w', match_donation (mkMatchRequest id) w = (inl resp, w') ->
                      exists l1 l2,
                        listed = l1 ++ donation resp :: l2
                        /\ forall d, In d l1 -> Donation.donation_id d <> id).
Proof.
  intros listed. split; [reflexivity |]. split; [split |].
  - intros Hrun d Hd Hid.
    pose proof (match_donation_outcome w id) as H.
    assert (Hin : In d (select_donations w id STATUS_PENDING)).
    { rewrite select_donations_as_pending. apply filter_In.
      split; [exact Hd | apply Z.eqb_eq; exact Hid]. }
    destruct (select_donations w id STATUS_PENDING) as [| d0 tl]; [destruct Hin |].
    destruct (find_best_match w d0) as [best |].
    + cbv zeta in H.
      destruct (write_faults w) as [| [msg |] [| [msg' |] rest]];
        rewrite H in Hrun; discriminate.
    + rewrite H in Hrun. discriminate.
  - intros Hnone. apply match_donation_no_pending.
    rewrite select_donations_as_pending. fold listed.
    destruct (filter (fun d => (Donation.donation_id d =? id)%Z) listed)
      as [| d tl] eqn:E; [reflexivity |].
    assert (Hin : In d (filter (fun d => (Donation.donation_id d =? id)%Z) listed))
      by (rewrite E; left; reflexivity).
    apply filter_In in Hin. destruct Hin as [Hin Hid]. apply Z.eqb_eq in Hid.
    exfalso. exact (Hnone d Hin Hid).
  - intros resp w' Hrun.
    destruct (match_donation_success_inv _ _ _ _ Hrun) as (tl & Hsel & _).
    cbn [donation_id] in Hsel. rewrite select_donations_as_pending in Hsel.
    fold listed in Hsel. clear Hrun. revert Hsel.
    induction listed as [| d rows IH]; [discriminate |].
    cbn [filter]. destruct (Donation.donation_id d =? id)%Z eqn:E.
    + intros H. injection H as -> _. exists [], rows. split; [reflexivity |].
      intros x [].
    + intros H. destruct (IH H) as (l1 & l2 & -> & Hl1).
      exists (d :: l1), l2. split; [reflexivity |].
      intros x [<- | Hx]; [apply Z.eqb_neq; exact E | apply Hl1; exact Hx].
Qed.

(** X16. After a successful call the matched demand, with its new
    [quantity_fulfilled], is still offered to later donations of its category
    exactly when it is still short: when [quantity_fulfilled + quantity]
    reaches [quantity_needed] it drops out of the candidates. *)
Theorem match_donation_demand_stays_candidate
        (w w' : World) (req : MatchRequest) (resp : MatchResponse) :
  match_donation req w = (inl resp, w') ->
  let dem := matched_demand resp in
  let new_fulfilled :=
    (Demand.quantity_fulfilled dem + Donation.quantity (donation resp))%Z in
  In (Demand.set_quantity_fulfilled new_fulfilled dem)
     (select_unmet_demands w' (Donation.item_category (donation resp)))
  <-> (new_fulfilled < Demand.quantity_needed dem)%Z.
Proof.
  intros Hrun dem new_fulfilled.
  destruct (match_donation_success_inv _ _ _ _ Hrun) as (tl & _ & Hbest & Hc & _ & _).
  destruct (commit_success _ _ _ _ _ Hc) as [_ Hdems].
  destruct (find_best_match_Some _ _ _ Hbest) as (l1 & l2 & Hl & _).
  assert (Hin : In dem (select_unmet_demands w (Donation.item_category (donation resp))))
    by (rewrite Hl; apply in_elt).
  apply select_unmet_demands_In in Hin. destruct Hin as (Hin & Hcat & _).
  rewrite select_unmet_demands_In.
  cbn [Demand.set_quantity_fulfilled Demand.item_category Demand.quantity_fulfilled
       Demand.quantity_needed].
  split; [tauto |]. intros Hlt. split; [| split; [exact Hcat | exact Hlt]].
  rewrite Hdems. apply set_fulfilled_where_In; [exact Hin | reflexivity].
Qed.

Lemma match_donation_demand_stays_candidate_witness :
  In (Demand.set_quantity_fulfilled 10 Sample.D1)
     (select_unmet_demands
        (mkWorld (set_status_where 1 STATUS_MATCHED [Sample.don])
           (set_fulfilled_where 1 10 [Sample.D1]) [])
        "books")
  <-> (10 < 20)%Z.
Proof.
  exact (match_donation_demand_stays_candidate
           (Sample.world [Sample.D1] []) _ (mkMatchRequest 1) _
           (match_donation_success (Sample.world [Sample.D1] []) 1 Sample.don []
              Sample.D1 (sample_select _ _) (sample_find_D1 _) eq_refl)).
Defined.

Lemma match_donation_pending_agreement_witness :
  match_donation (mkMatchRequest 2) (Sample.world [Sample.D1] [])
  = (inr (mkHTTPException 404 DETAIL_NO_PENDING_DONATION), Sample.world [Sample.D1] []).
Proof.
  pose proof (match_donation_pending_agreement (Sample.world [Sample.D1] []) 2) as H.
  cbv zeta in H. destruct H as (_ & [_ H] & _). apply H.
  intros d [<- | []]. discriminate.
Defined.

(** * What the selection does not look at *)

Lemma loop_body_same_inputs (don don' : Donation.t) (st : scan_state) (d : Demand.t) :
  Donation.item_name don' = Donation.item_name don ->
  Donation.donor_lat don' = Donation.donor_lat don ->
  Donation.donor_lng don' = Donation.donor_lng don ->
  loop_body don' st d = loop_body don st d.
Proof.
  intros Hn Hlat Hlng.
  unfold loop_body, demand_distance, total_score, suitability_score.
  rewrite Hn, Hlat, Hlng. reflexivity.
Qed.

(** X18. The choice of the demand looks at the donation's item category,
    item name and donor coordinates only: two donations that agree on these
    are matched to the same demand, whatever their quantity, id or status. *)
Theorem find_best_match_ignores_quantity (w : World) (don don' : Donation.t) :
  Donation.item_category don' = Donation.item_category don ->
  Donation.item_name don' = Donation.item_name don ->
  Donation.donor_lat don' = Donation.donor_lat don ->
  Donation.donor_lng don' = Donation.donor_lng don ->
  find_best_match w don' = find_best_match w don.
Proof.
  intros Hc Hn Hlat Hlng. rewrite !find_best_match_scan, Hc. unfold scan.
  f_equal. generalize (None : option Demand.t, -1) as st.
  induction (select_unmet_demands w (Donation.item_category don)) as [| d l IH];
    intros st; [reflexivity |].
  cbn [fold_left]. rewrite (loop_body_same_inputs don don' st d Hn Hlat Hlng).
  apply IH.
Qed.

Lemma find_best_match_ignores_quantity_witness :
  find_best_match (Sample.world [Sample.D2] [])
    (Donation.mk 9 "books" "Math Textbook" 1000 0 0 STATUS_MATCHED)
  = find_best_match (Sample.world [Sample.D2] []) Sample.don.
Proof.
  apply find_best_match_ignores_quantity; reflexivity.
Defined.

(** * The selection with rounding and exceptions *)

Section FpScan.
Variable F : FloatOps.
Variable donation : Donation.t.

Lemma loop_body_fp_raises (st : scan_state) (d : Demand.t) (e : PyException) :
  evaluate_fp F donation d = Raises e -> loop_body_fp F donation st d = Raises e.
Proof. intros H. unfold loop_body_fp. rewrite H. reflexivity. Qed.

Lemma loop_body_fp_too_far (st : scan_state) (d : Demand.t) :
  evaluate_fp F donation d = Returns TooFar -> loop_body_fp F donation st d = Returns st.
Proof. intros H. unfold loop_body_fp. rewrite H. reflexivity. Qed.

Lemma loop_body_fp_adopt (st : scan_state) (d : Demand.t) (s : R) :
  evaluate_fp F donation d = Returns (Scored s) -> s > snd st ->
  loop_body_fp F donation st d = Returns (Some d, s).
Proof.
  intros H Hgt. unfold loop_body_fp. rewrite H. cbn [py_bind].
  rewrite Rgtb_true by exact Hgt. reflexivity.
Qed.

Lemma loop_body_fp_keep (st : scan_state) (d : Demand.t) (s : R) :
  evaluate_fp F donation d = Returns (Scored s) -> s <= snd st ->
  loop_body_fp F donation st d = Returns st.
Proof.
  intros H Hle. unfold loop_body_fp. rewrite H. cbn [py_bind].
  rewrite Rgtb_false by exact Hle. reflexivity.
Qed.

Lemma scan_from_fp_app (l1 l2 : list Demand.t) (st : scan_state) :
  scan_from_fp F donation (l1 ++ l2) st
  = (st' <~ scan_from_fp F donation l1 st ;; scan_from_fp F donation l2 st').
Proof.
  revert st. induction l1 as [| d l1 IH]; intros st; [reflexivity |].
  cbn [app scan_from_fp].
  destruct (loop_body_fp F donation st d) as [st' | e]; cbn [py_bind];
    [apply IH | reflexivity].
Qed.

(** What the loop leaves behind from any starting state: the exception of the
    first candidate that raises; or, when none raises, the starting state if
    no score beat it, and else the first candidate with the greatest score. *)
Lemma scan_from_fp_spec (l : list Demand.t) (st : scan_state) :
  (exists l1 c l2 e,
      l = l1 ++ c :: l2
      /\ all_return F donation l1
      /\ evaluate_fp F donation c = Raises e
      /\ scan_from_fp F donation l st = Raises e)
  \/ (all_return F donation l
      /\ ((scan_from_fp F donation l st = Returns st
           /\ forall x s, In x l -> evaluate_fp F donation x = Returns (Scored s) ->
                          s <= snd st)
          \/ (exists l1 best l2 s,
                l = l1 ++ best :: l2
                /\ scan_from_fp F donation l st = Returns (Some best, s)
                /\ evaluate_fp F donation best = Returns (Scored s)
                /\ s > snd st
                /\ (forall x sx, In x l1 ->
                                 evaluate_fp F donation x = Returns (Scored sx) -> sx < s)
                /\ (forall x sx, In x l2 ->
                                 evaluate_fp F donation x = Returns (Scored sx) -> sx <= s)))).
Proof.
  revert st. induction l as [| d l IH]; intros st.
  - right. split; [intros x [] |]. left. split; [reflexivity | intros x s []].
  - cbn [scan_from_fp].
    destruct (evaluate_fp F donation d) as [[| s] | e] eqn:Hev.
    + (* skipped *)
      rewrite (loop_body_fp_too_far st d Hev). cbn [py_bind].
      destruct (IH st) as [(l1 & c & l2 & e & Hl & Hret & Hc & Hf)
                          | [Hret [[Hf Hall] | (l1 & b & l2 & sb & Hl & Hf & Hb & Hgt & H1 & H2)]]].
      * left. exists (d :: l1), c, l2, e. subst l. repeat split; try assumption.
        intros x [<- | Hx]; [eexists; exact Hev | apply Hret; exact Hx].
      * right. split.
        { intros x [<- | Hx]; [eexists; exact Hev | apply Hret; exact Hx]. }
        left. split; [exact Hf |].
        intros x sx [<- | Hx] Hsx; [congruence | eapply Hall; eassumption].
      * right. split.
        { intros x [<- | Hx]; [eexists; exact Hev | apply Hret; exact Hx]. }
        right. exists (d :: l1), b, l2, sb. subst l. repeat split; try assumption.
        intros x sx [<- | Hx] Hsx; [congruence | eapply H1; eassumption].
    + destruct (Rgt_dec s (snd st)) as [Hs | Hs].
      * (* adopted *)
        rewrite (loop_body_fp_adopt st d s Hev Hs). cbn [py_bind].
        destruct (IH (Some d, s)) as [(l1 & c & l2 & e & Hl & Hret & Hc & Hf)
                          | [Hret [[Hf Hall] | (l1 & b & l2 & sb & Hl & Hf & Hb & Hgt & H1 & H2)]]].
        -- left. exists (d :: l1), c, l2, e. subst l. repeat split; try assumption.
           intros x [<- | Hx]; [eexists; exact Hev | apply Hret; exact Hx].
        -- right. split.
           { intros x [<- | Hx]; [eexists; exact Hev | apply Hret; exact Hx]. }
           right. exists [], d, l, s. cbn [snd] in Hall.
           repeat split; try assumption. intros x sx [].
        -- right. split.
           { intros x [<- | Hx]; [eexists; exact Hev | apply Hret; exact Hx]. }
           right. exists (d :: l1), b, l2, sb. subst l. cbn [snd] in Hgt.
           repeat split; try assumption; [lra |].
           intros x sx [<- | Hx] Hsx.
           ++ rewrite Hev in Hsx. injection Hsx as <-. lra.
           ++ eapply H1; eassumption.
      * (* kept *)
        assert (Hle : s <= snd st) by lra.
        rewrite (loop_body_fp_keep st d s Hev Hle). cbn [py_bind].
        destruct (IH st) as [(l1 & c & l2 & e & Hl & Hret & Hc & Hf)
                          | [Hret [[Hf Hall] | (l1 & b & l2 & sb & Hl & Hf & Hb & Hgt & H1 & H2)]]].
        -- left. exists (d :: l1), c, l2, e. subst l. repeat split; try assumption.
           intros x [<- | Hx]; [eexists; exact Hev | apply Hret; exact Hx].
        -- right. split.
           { intros x [<- | Hx]; [eexists; exact Hev | apply Hret; exact Hx]. }
           left. split; [exact Hf |].
           intros x sx [<- | Hx] Hsx.
           ++ rewrite Hev in Hsx. injection Hsx as <-. exact Hle.
           ++ eapply Hall; eassumption.
        -- right. split.
           { intros x [<- | Hx]; [eexists; exact Hev | apply Hret; exact Hx]. }
           right. exists (d :: l1), b, l2, sb. subst l.
           repeat split; try assumption.
           intros x sx [<- | Hx] Hsx.
           ++ rewrite Hev in Hsx. injection Hsx as <-. lra.
           ++ eapply H1; eassumption.
    + (* raises *)
      rewrite (loop_body_fp_raises st d e Hev). cbn [py_bind].
      left. exists [], d, l, e. repeat split; [intros x [] | exact Hev].
Qed.

(** The exception of the first candidate that raises is the outcome. *)
Lemma scan_from_fp_first_raise (l1 l2 : list Demand.t) (c : Demand.t)
      (e : PyException) (st : scan_state) :
  all_return F donation l1 ->
  evaluate_fp F donation c = Raises e ->
  scan_from_fp F donation (l1 ++ c :: l2) st = Raises e.
Proof.
  intros Hret Hc. rewrite scan_from_fp_app.
  destruct (scan_from_fp_spec l1 st)
    as [(la & x & lb & e' & Hl & _ & Hx & _)
       | [_ [[Hf _] | (la & b & lb & sb & _ & Hf & _)]]].
  - exfalso. destruct (Hret x) as [v Hv]; [subst l1; apply in_elt |]. congruence.
  - rewrite Hf. cbn [py_bind scan_from_fp].
    rewrite (loop_body_fp_raises _ c e Hc). reflexivity.
  - rewrite Hf. cbn [py_bind scan_from_fp].
    rewrite (loop_body_fp_raises _ c e Hc). reflexivity.
Qed.

(** When nothing raises, a scored candidate that beats the start and all
    before it and is not beaten after it is what the loop returns. *)
Lemma scan_from_fp_first_best (l1 l2 : list Demand.t) (c : Demand.t) (s : R)
      (st : scan_state) :
  all_return F donation (l1 ++ c :: l2) ->
  evaluate_fp F donation c = Returns (Scored s) ->
  s > snd st ->
  (forall x sx, In x l1 -> evaluate_fp F donation x = Returns (Scored sx) -> sx < s) ->
  (forall x sx, In x l2 -> evaluate_fp F donation x = Returns (Scored sx) -> sx <= s) ->
  scan_from_fp F donation (l1 ++ c :: l2) st = Returns (Some c, s).
Proof.
  intros Hret Hc Hgt H1 H2. rewrite scan_from_fp_app.
  assert (Hmid : exists st1, scan_from_fp F donation l1 st = Returns st1 /\ s > snd st1).
  { destruct (scan_from_fp_spec l1 st)
      as [(la & x & lb & e' & Hl & _ & Hx & _)
         | [_ [[Hf _] | (la & b & lb & sb & Hl & Hf & Hb & _)]]].
    - exfalso. destruct (Hret x) as [v Hv].
      + apply in_or_app. left. subst l1. apply in_elt.
      + congruence.
    - exists st. split; assumption.
    - exists (Some b, sb). split; [exact Hf |]. cbn [snd].
      apply (H1 b sb); [subst l1; apply in_elt | exact Hb]. }
  destruct Hmid as (st1 & Hf1 & Hgt1). rewrite Hf1. cbn [py_bind scan_from_fp].
  rewrite (loop_body_fp_adopt st1 c s Hc Hgt1). cbn [py_bind].
  destruct (scan_from_fp_spec l2 (Some c, s))
    as [(la & x & lb & e' & Hl & _ & Hx & _)
       | [_ [[Hf _] | (la & b & lb & sb & Hl & Hf & Hb & Hgtb & _)]]].
  - exfalso. destruct (Hret x) as [v Hv].
    + apply in_or_app. right. right. subst l2. apply in_elt.
    + congruence.
  - exact Hf.
  - exfalso. cbn [snd] in Hgtb.
    assert (sb <= s) by (apply (H2 b sb); [subst l2; apply in_elt | exact Hb]).
    lra.
Qed.
End FpScan.

Lemma find_best_match_fp_scan (F : FloatOps) (w : World) (donation : Donation.t) :
  find_best_match_fp F w donation
  = (st <~ scan_from_fp F donation
             (select_unmet_demands w (Donation.item_category donation)) (None, -1) ;;
     Returns (fst st)).
Proof.
  unfold find_best_match_fp. cbv zeta.
  destruct (select_unmet_demands w (Donation.item_category donation)); reflexivity.
Qed.

(** ** Exact arithmetic is an instance *)

Lemma calculate_distance_fp_exact (lat1 lon1 lat2 lon2 : R) :
  calculate_distance_fp exact_ops lat1 lon1 lat2 lon2
  = Returns (calculate_distance lat1 lon1 lat2 lon2).
Proof.
  pose proof (haversine_a_bounds lat1 lon1 lat2 lon2) as [Ha0 Ha1].
  unfold calculate_distance_fp, calculate_distance, math_sqrt, exact_ops.
  cbn [rnd math_radians math_sin math_cos math_atan2 py_bind].
  fold (haversine_a lat1 lon1 lat2 lon2).
  destruct (Rlt_dec (haversine_a lat1 lon1 lat2 lon2) 0) as [H | _]; [lra |].
  cbn [py_bind].
  destruct (Rlt_dec (1 - haversine_a lat1 lon1 lat2 lon2) 0) as [H | _]; [lra |].
  reflexivity.
Qed.

Lemma total_score_fp_exact (donation : Donation.t) (demand : Demand.t) (d : R) :
  total_score_fp exact_ops donation demand d = Returns (total_score donation demand d).
Proof. reflexivity. Qed.

Lemma evaluate_fp_exact (donation : Donation.t) (demand : Demand.t) :
  evaluate_fp exact_ops donation demand
  = Returns (if Rgtb (demand_distance donation demand) MAX_DISTANCE
             then TooFar else Scored (score_of donation demand)).
Proof.
  unfold evaluate_fp. cbv zeta. rewrite calculate_distance_fp_exact. cbn [py_bind].
  fold (demand_distance donation demand).
  destruct (Rgtb (demand_distance donation demand) MAX_DISTANCE); [reflexivity |].
  rewrite total_score_fp_exact. reflexivity.
Qed.

Lemma exact_ops_well_rounded : well_rounded exact_ops.
Proof.
  constructor; cbn [rnd int_truediv exact_ops]; try reflexivity.
  - intros x y H. exact H.
  - intros p q v Hp Hq H. injection H as <-.
    apply IZR_le in Hp. apply IZR_lt in Hq.
    apply Rmult_le_pos; [exact Hp | left; apply Rinv_0_lt_compat; exact Hq].
Qed.

Lemma sample_evaluate_near (d : Demand.t) :
  Demand.schools d = Sample.school_near ->
  evaluate_fp exact_ops Sample.don d = Returns (Scored (score_of Sample.don d)).
Proof.
  intros H. rewrite evaluate_fp_exact, (sample_distance_near d H).
  rewrite Rgtb_false by (unfold MAX_DISTANCE; lra). reflexivity.
Qed.

Lemma sample_evaluate_raises (d : Demand.t) :
  evaluate_fp Sample.raising_ops Sample.don d = Raises ValueError.
Proof. reflexivity. Qed.

Lemma scan_from_fp_exact (donation : Donation.t) (l : list Demand.t) (st : scan_state) :
  scan_from_fp exact_ops donation l st = Returns (fold_left (loop_body donation) l st).
Proof.
  revert st. induction l as [| d l IH]; intros st; [reflexivity |].
  cbn [scan_from_fp fold_left]. unfold loop_body_fp. rewrite evaluate_fp_exact.
  cbn [py_bind]. unfold loop_body at 2. cbv zeta.
  destruct (Rgtb (demand_distance donation d) MAX_DISTANCE); [apply IH |].
  fold (score_of donation d).
  destruct (Rgtb (score_of donation d) (snd st)); apply IH.
Qed.

(** In exact arithmetic the selection never raises and is [find_best_match]. *)
Lemma find_best_match_fp_exact (w : World) (donation : Donation.t) :
  find_best_match_fp exact_ops w donation = Returns (find_best_match w donation).
Proof.
  rewrite find_best_match_fp_scan, scan_from_fp_exact, find_best_match_scan.
  reflexivity.
Qed.

(** X5. With rounding and exceptions: [find_best_match] raises exactly when
    the computation for some candidate raises, and then with the exception of
    the first such candidate, whatever the others are - so one candidate for
    which [calculate_distance] raises aborts the selection; and it returns
    no demand exactly when no candidate raises and no candidate within 200 km
    scores above -1. *)
Theorem find_best_match_fp_raises_or_none
        (F : FloatOps) (w : World) (donation : Donation.t) :
  let candidates := select_unmet_demands w (Donation.item_category donation) in
  (forall e,
      find_best_match_fp F w donation = Raises e <->
      exists l1 c l2,
        candidates = l1 ++ c :: l2
        /\ all_return F donation l1
        /\ evaluate_fp F donation c = Raises e)
  /\ (forall c e,
         calculate_distance_fp F
           (Donation.donor_lat donation) (Donation.donor_lng donation)
           (School.location_lat (Demand.schools c))
           (School.location_lng (Demand.schools c)) = Raises e ->
         evaluate_fp F donation c = Raises e)
  /\ (find_best_match_fp F w donation = Returns None <->
      all_return F donation candidates
      /\ forall x s, In x candidates ->
                     evaluate_fp F donation x = Returns (Scored s) -> ~ s > -1).
Proof.
  intros candidates. rewrite find_best_match_fp_scan. fold candidates.
  split; [| split].
  - intros e. split.
    + intros H.
      destruct (scan_from_fp_spec F donation candidates (None, -1))
        as [(l1 & c & l2 & e' & Hl & Hret & Hc & Hf)
           | [_ [[Hf _] | (l1 & b & l2 & sb & _ & Hf & _)]]];
        rewrite Hf in H; cbn [py_bind] in H; try discriminate.
      injection H as <-. exists l1, c, l2. repeat split; assumption.
    + intros (l1 & c & l2 & Hl & Hret & Hc). rewrite Hl.
      rewrite (scan_from_fp_first_raise F donation l1 l2 c e _ Hret Hc). reflexivity.
  - intros c e H. unfold evaluate_fp. cbv zeta. rewrite H. reflexivity.
  - split.
    + intros H.
      destruct (scan_from_fp_spec F donation candidates (None, -1))
        as [(l1 & c & l2 & e' & Hl & Hret & Hc & Hf)
           | [Hret [[Hf Hall] | (l1 & b & l2 & sb & _ & Hf & _)]]];
        rewrite Hf in H; cbn [py_bind fst] in H; try discriminate.
      split; [exact Hret |]. intros x s Hx Hs.
      pose proof (Hall x s Hx Hs) as Hle. cbn [snd] in Hle. lra.
    + intros [Hret Hall].
      destruct (scan_from_fp_spec F donation candidates (None, -1))
        as [(l1 & c & l2 & e' & Hl & _ & Hc & _)
           | [_ [[Hf _] | (l1 & b & l2 & sb & Hl & _ & Hb & Hgt & _)]]].
      * exfalso. destruct (Hret c) as [v Hv]; [rewrite Hl; apply in_elt |]. congruence.
      * rewrite Hf. reflexivity.
      * exfalso. cbn [snd] in Hgt.
        apply (Hall b sb); [rewrite Hl; apply in_elt | exact Hb | exact Hgt].
Qed.

(** [math.sin] raising for the only candidate: the selection raises too. *)
Lemma find_best_match_fp_raises_or_none_witness :
  find_best_match_fp Sample.raising_ops (Sample.world [Sample.D1] []) Sample.don
  = Raises ValueError.
Proof.
  pose proof (find_best_match_fp_raises_or_none Sample.raising_ops
                (Sample.world [Sample.D1] []) Sample.don) as H.
  cbv zeta in H. destruct H as (H & _ & _). apply H.
  exists [], Sample.D1, []. repeat split.
  intros x [].
Defined.

(** X19. With rounding and exceptions, when no candidate raises: of two
    candidates within 200 km whose computed scores are equal, above -1 and
    not exceeded by any other computed score, the earlier one - if no
    candidate before it reaches that score - is returned; a tie never
    replaces the current best. *)
Theorem find_best_match_fp_first_wins
        (F : FloatOps) (w : World) (donation : Donation.t)
        (l1 l2 l3 : list Demand.t) (c1 c2 : Demand.t) (s : R) :
  select_unmet_demands w (Donation.item_category donation)
  = l1 ++ c1 :: l2 ++ c2 :: l3 ->
  all_return F donation (l1 ++ c1 :: l2 ++ c2 :: l3) ->
  evaluate_fp F donation c1 = Returns (Scored s) ->
  evaluate_fp F donation c2 = Returns (Scored s) ->
  s > -1 ->
  (forall x sx, In x (l1 ++ c1 :: l2 ++ c2 :: l3) ->
                evaluate_fp F donation x = Returns (Scored sx) -> sx <= s) ->
  (forall x sx, In x l1 -> evaluate_fp F donation x = Returns (Scored sx) -> sx < s) ->
  find_best_match_fp F w donation = Returns (Some c1).
Proof.
  intros Hl Hret Hc1 Hc2 Hgt Hmax Hfirst.
  rewrite find_best_match_fp_scan, Hl.
  rewrite (scan_from_fp_first_best F donation l1 (l2 ++ c2 :: l3) c1 s (None, -1));
    try assumption; [reflexivity |].
  intros x sx Hx Hsx. apply (Hmax x sx); [| exact Hsx].
  apply in_or_app. right. right. exact Hx.
Qed.

(** In exact arithmetic [T1] and [T2] tie at 0.6 behind [D2] at 0.4. *)
Lemma find_best_match_fp_first_wins_witness :
  find_best_match_fp exact_ops (Sample.world [Sample.D2; Sample.T1; Sample.T2] [])
    Sample.don
  = Returns (Some Sample.T1).
Proof.
  apply (find_best_match_fp_first_wins exact_ops
           (Sample.world [Sample.D2; Sample.T1; Sample.T2] []) Sample.don
           [Sample.D2] [] [] Sample.T1 Sample.T2 0.6).
  - reflexivity.
  - intros x [<- | [<- | [<- | []]]]; eexists; apply sample_evaluate_near; reflexivity.
  - rewrite sample_evaluate_near by reflexivity. rewrite sample_score_T1. reflexivity.
  - rewrite sample_evaluate_near by reflexivity. rewrite sample_score_T2. reflexivity.
  - lra.
  - intros x sx [<- | [<- | [<- | []]]] H;
      rewrite sample_evaluate_near in H by reflexivity; injection H as <-;
      rewrite ?sample_score_D2, ?sample_score_T1, ?sample_score_T2; lra.
  - intros x sx [<- | []] H.
    rewrite sample_evaluate_near in H by reflexivity. injection H as <-.
    rewrite sample_score_D2. lra.
Defined.

(** X7. With rounding and exceptions, when no candidate raises, the order of
    the rows matters only for ties: a candidate whose computed score is above
    -1 and strictly above the computed score of every other candidate is
    returned from the table and from any reordering of it. *)
Theorem find_best_match_fp_unique_best_any_order
        (F : FloatOps) (w w' : World) (donation : Donation.t) (c : Demand.t) (s : R) :
  let candidates := select_unmet_demands w (Donation.item_category donation) in
  Permutation (demands w) (demands w') ->
  all_return F donation candidates ->
  In c candidates ->
  evaluate_fp F donation c = Returns (Scored s) ->
  s > -1 ->
  (forall x sx, In x candidates -> x <> c ->
                evaluate_fp F donation x = Returns (Scored sx) -> sx < s) ->
  find_best_match_fp F w donation = Returns (Some c)
  /\ find_best_match_fp F w' donation = Returns (Some c).
Proof.
  intros candidates Hperm Hret Hc Hev Hgt Huniq.
  assert (Hgen : forall v : World,
             (forall x, In x (demands v) <-> In x (demands w)) ->
             find_best_match_fp F v donation = Returns (Some c)).
  { intros v Hsame.
    assert (Hcand : forall x,
               In x (select_unmet_demands v (Donation.item_category donation)) <->
               In x candidates).
    { intros x. unfold candidates. rewrite !select_unmet_demands_In, Hsame. reflexivity. }
    rewrite find_best_match_fp_scan.
    destruct (scan_from_fp_spec F donation
                (select_unmet_demands v (Donation.item_category donation)) (None, -1))
      as [(l1 & x & l2 & e & Hl & _ & Hx & _)
         | [_ [[_ Hall] | (l1 & b & l2 & sb & Hl & Hf & Hb & _ & H1 & H2)]]].
    - exfalso. destruct (Hret x) as [vx Hvx].
      + apply Hcand. rewrite Hl. apply in_elt.
      + congruence.
    - exfalso. cbn [snd] in Hall.
      assert (s <= -1) by (apply (Hall c s); [apply Hcand; exact Hc | exact Hev]).
      lra.
    - rewrite Hf. cbn [py_bind fst]. do 2 f_equal.
      destruct (classic (b = c)) as [Hbc | Hbc]; [exact Hbc |]. exfalso.
      assert (Hbin : In b candidates) by (apply Hcand; rewrite Hl; apply in_elt).
      assert (Hlt : sb < s) by (apply (Huniq b sb Hbin Hbc Hb)).
      assert (Hcin : In c (l1 ++ b :: l2)) by (rewrite <- Hl; apply Hcand; exact Hc).
      apply in_app_or in Hcin. destruct Hcin as [Hc1 | [Hc0 | Hc2]].
      + assert (s < sb) by (apply (H1 c s Hc1 Hev)). lra.
      + subst b. apply Hbc. reflexivity.
      + assert (s <= sb) by (apply (H2 c s Hc2 Hev)). lra. }
  split; apply Hgen.
  - intros x. reflexivity.
  - intros x. split; intros Hx.
    + apply (Permutation_in x (Permutation_sym Hperm)). exact Hx.
    + apply (Permutation_in x Hperm). exact Hx.
Qed.

(** In exact arithmetic [D1] scores 1 and [D2] 0.4, in either order. *)
Lemma find_best_match_fp_unique_best_any_order_witness :
  find_best_match_fp exact_ops (Sample.world [Sample.D2; Sample.D1] []) Sample.don
  = Returns (Some Sample.D1)
  /\ find_best_match_fp exact_ops (Sample.world [Sample.D1; Sample.D2] []) Sample.don
     = Returns (Some Sample.D1).
Proof.
  apply (find_best_match_fp_unique_best_any_order exact_ops
           (Sample.world [Sample.D2; Sample.D1] [])
           (Sample.world [Sample.D1; Sample.D2] []) Sample.don Sample.D1 1).
  - apply perm_swap.
  - intros x [<- | [<- | []]]; eexists; apply sample_evaluate_near; reflexivity.
  - right. left. reflexivity.
  - rewrite sample_evaluate_near by reflexivity. rewrite sample_score_D1. reflexivity.
  - lra.
  - intros x sx [<- | [<- | []]] Hne H.
    + rewrite sample_evaluate_near in H by reflexivity. injection H as <-.
      rewrite sample_score_D2. lra.
    + contradiction.
Defined.



Lemma rnd_nonneg (F : FloatOps) (x : R) : well_rounded F -> 0 <= x -> 0 <= rnd F x.
Proof.
  intros HF Hx. rewrite <- (rnd_0 F HF). apply (rnd_monotone F HF). exact Hx.
Qed.

(** A candidate in range with a nonnegative priority has a nonnegative score,
    whatever the rounding. *)
Lemma evaluate_fp_score_nonneg (F : FloatOps) (donation : Donation.t)
      (demand : Demand.t) (s : R) :
  well_rounded F ->
  (0 <= Demand.priority demand)%Z ->
  evaluate_fp F donation demand = Returns (Scored s) ->
  0 <= s.
Proof.
  intros HF Hp. unfold evaluate_fp. cbv zeta.
  destruct (calculate_distance_fp F _ _ _ _) as [dist | e]; cbn [py_bind];
    [| discriminate].
  destruct (Rgtb dist MAX_DISTANCE) eqn:Hd; [discriminate |].
  apply Rgtb_false_iff in Hd. unfold MAX_DISTANCE in Hd.
  unfold total_score_fp. cbv zeta.
  destruct (int_truediv F (Demand.priority demand) 5) as [q | e] eqn:Hq;
    cbn [py_bind]; [| discriminate].
  intros H. injection H as <-.
  assert (Hq0 : 0 <= q) by (apply (int_truediv_nonneg F HF _ 5 q Hp); [lia | exact Hq]).
  unfold MAX_DISTANCE, W_DISTANCE, W_PRIORITY, W_SUITABILITY.
  assert (Hr : rnd F (dist / 200) <= 1).
  { rewrite <- (rnd_1 F HF). apply (rnd_monotone F HF). lra. }
  assert (Hds : 0 <= rnd F (rnd F (1 - rnd F (dist / 200)) * rnd F 0.3)).
  { apply rnd_nonneg; [exact HF |]. apply Rmult_le_pos; apply rnd_nonneg; try exact HF; lra. }
  assert (Hps : 0 <= rnd F (q * rnd F 0.5)).
  { apply rnd_nonneg; [exact HF |]. apply Rmult_le_pos; [exact Hq0 |].
    apply rnd_nonneg; [exact HF | lra]. }
  assert (Hss : 0 <= (if String.eqb (Donation.item_name donation) (Demand.item_name demand)
                      then rnd F (1.0 * rnd F 0.2) else 0.0)).
  { destruct (String.eqb _ _); [| lra].
    apply rnd_nonneg; [exact HF |]. apply Rmult_le_pos; [lra |].
    apply rnd_nonneg; [exact HF | lra]. }
  apply rnd_nonneg; [exact HF |].
  apply Rplus_le_le_0_compat; [| exact Hss].
  apply rnd_nonneg; [exact HF |]. apply Rplus_le_le_0_compat; assumption.
Qed.

(** X21. With rounding and exceptions, for any rounding that is monotone and
    keeps 0 and 1: if no candidate raises, some candidate lies within 200 km
    and every candidate's priority is nonnegative, then every computed score
    is at least 0, hence above the starting score -1, and [find_best_match]
    returns a demand, one of the candidates. *)
Theorem find_best_match_fp_returns_some
        (F : FloatOps) (w : World) (donation : Donation.t) :
  let candidates := select_unmet_demands w (Donation.item_category donation) in
  well_rounded F ->
  all_return F donation candidates ->
  (exists c s, In c candidates /\ evaluate_fp F donation c = Returns (Scored s)) ->
  (forall c, In c candidates -> (0 <= Demand.priority c)%Z) ->
  (forall c s, In c candidates -> evaluate_fp F donation c = Returns (Scored s) ->
               0 <= s)
  /\ (exists best, find_best_match_fp F w donation = Returns (Some best)
                   /\ In best candidates).
Proof.
  intros candidates HF Hret (c0 & s0 & Hc0 & Hs0) Hprio.
  assert (Hnonneg : forall c s, In c candidates ->
                                evaluate_fp F donation c = Returns (Scored s) -> 0 <= s).
  { intros c s Hc Hs. exact (evaluate_fp_score_nonneg F donation c s HF (Hprio c Hc) Hs). }
  split; [exact Hnonneg |].
  rewrite find_best_match_fp_scan. fold candidates.
  destruct (scan_from_fp_spec F donation candidates (None, -1))
    as [(l1 & x & l2 & e & Hl & _ & Hx & _)
       | [_ [[_ Hall] | (l1 & b & l2 & sb & Hl & Hf & _)]]].
  - exfalso. destruct (Hret x) as [v Hv]; [rewrite Hl; apply in_elt |]. congruence.
  - exfalso. cbn [snd] in Hall.
    assert (s0 <= -1) by (apply (Hall c0 s0 Hc0 Hs0)).
    assert (0 <= s0) by (apply (Hnonneg c0 s0 Hc0 Hs0)). lra.
  - exists b. rewrite Hf. split; [reflexivity |]. rewrite Hl. apply in_elt.
Qed.

(** In exact arithmetic: [D3] is too far, [D2] is in range. *)
Lemma find_best_match_fp_returns_some_witness :
  exists best,
    find_best_match_fp exact_ops (Sample.world [Sample.D3; Sample.D2] []) Sample.don
    = Returns (Some best)
    /\ In best [Sample.D3; Sample.D2].
Proof.
  apply (find_best_match_fp_returns_some exact_ops
           (Sample.world [Sample.D3; Sample.D2] []) Sample.don).
  - exact exact_ops_well_rounded.
  - intros x [<- | [<- | []]]; eexists.
    + apply evaluate_fp_exact.
    + apply sample_evaluate_near. reflexivity.
  - exists Sample.D2, (score_of Sample.don Sample.D2).
    split; [right; left; reflexivity | apply sample_evaluate_near; reflexivity].
  - intros c [<- | [<- | []]]; cbn; lia.
Defined.

(** X22. Under any monotone rounding that keeps 0, the score the loop
    computes never grows with the distance: for [d1 <= d2] the score at [d1]
    is at least the score at [d2] (it can be equal, as rounding may merge
    them). *)
Theorem total_score_fp_monotone_in_distance
        (F : FloatOps) (donation : Donation.t) (demand : Demand.t) (d1 d2 s1 s2 : R) :
  (forall x y, x <= y -> rnd F x <= rnd F y) ->
  rnd F 0 = 0 ->
  d1 <= d2 ->
  total_score_fp F donation demand d1 = Returns s1 ->
  total_score_fp F donation demand d2 = Returns s2 ->
  s2 <= s1.
Proof.
  intros Hmono H0 Hd. unfold total_score_fp. cbv zeta.
  destruct (int_truediv F (Demand.priority demand) 5) as [q | e]; cbn [py_bind];
    [| discriminate].
  intros H1 H2. injection H1 as <-. injection H2 as <-.
  unfold MAX_DISTANCE, W_DISTANCE.
  assert (Hw : 0 <= rnd F 0.3) by (rewrite <- H0; apply Hmono; lra).
  apply Hmono. apply Rplus_le_compat_r.
  apply Hmono. apply Rplus_le_compat_l.
  apply Hmono. apply Rmult_le_compat_r; [exact Hw |].
  apply Hmono. apply Rplus_le_compat_l. apply Ropp_le_contravar.
  apply Hmono. lra.
Qed.

Lemma total_score_fp_monotone_in_distance_witness :
  total_score Sample.don Sample.T1 150 <= total_score Sample.don Sample.T1 50.
Proof.
  apply (total_score_fp_monotone_in_distance exact_ops Sample.don Sample.T1 50 150).
  - intros x y H. exact H.
  - reflexivity.
  - lra.
  - apply total_score_fp_exact.
  - apply total_score_fp_exact.
Defined.
